(** * Transfer-fee engine of [src/base/util.ts]

    A shallow embedding of the fee computations of the SDK's utility module
    ([getTransferAmountFee], [BNDivCeil], [minExpirationTime]) and of its
    mint-fetching path ([unpackMint], [getTransferFeeConfig],
    [fetchMultipleMintInfos]), with the properties the specification states
    about them.

    Conventions of the embedding:
    - a [BN] (bn.js) and a [bigint] are arbitrary-precision signed integers,
      hence [Z]; the methods of [BN] are the operations of module [BN] below;
    - a JavaScript [number] on which the code does floating-point arithmetic
      (the fields of [EpochInfo], every expiration time) is an IEEE 754
      binary64 value, hence a primitive [float], with the primitive operations
      standing for the JavaScript operators;
    - [transferFeeBasisPoints] is a [number] that holds an integer (a [u16] in
      the mint's extension data) and only meets [===], an integer subtraction
      and [new BN(...)]: it is a [Z], and [new BN(n)], exact on the integers
      below [2^53] in magnitude, is that integer;
    - [null] and [undefined] are told apart where the source does
      ([nullable] against [option]);
    - a call that throws returns [None] in the outer [option] of its result;
    - an object used as a dictionary is a [gmap] over its string keys. *)

From Stdlib Require Import ZArith Lia Bool List.
From Stdlib Require Import Floats.
From stdpp Require Import gmap strings fin_maps.

Local Open Scope Z_scope.

(** ** bn.js *)

Module BN.

Definition t : Type := Z.

Definition add (a b : t) : t := a + b.
Definition sub (a b : t) : t := a - b.
Definition mul (a b : t) : t := a * b.
Definition gt (a b : t) : bool := a >? b.

(** [a.divmod(b)]: the quotient is truncated towards zero and the remainder
    takes the sign of the dividend; a zero divisor fails bn.js's assertion. *)
Definition divmod (a b : t) : option (t * t) :=
  if b =? 0 then None else Some (Z.quot a b, Z.rem a b).

(** [new BN(n)] for an integer [n], and [new BN(s)] for the decimal string
    [s = n.toString()] of a bigint [n]. *)
Definition of_number (n : Z) : t := n.
Definition of_bigint_string (n : Z) : t := n.

End BN.

(** Modelled from the spec: [ZERO] is imported from [../entity], which is not
    among the sources; the spec's ceiling division adds one when the remainder
    is nonzero, so [ZERO] is the [BN] zero. *)
Definition ZERO : BN.t := 0.

(** [BNDivCeil(bn1, bn2)] *)
Definition BNDivCeil (bn1 bn2 : BN.t) : option BN.t :=
  match BN.divmod bn1 bn2 with
  | None => None
  | Some (div, mod') =>
      Some (if BN.gt mod' ZERO then BN.add div (BN.of_number 1) else div)
  end.

(** The ceiling division of the specification, in its words: the floor
    quotient, plus one when there is a nonzero remainder. *)
Definition ceilDiv (a b : Z) : Z :=
  if a mod b =? 0 then a / b else a / b + 1.

(** ** The data model *)

Definition Buffer : Type := list Byte.byte.

(** A value of a type [T | null]. *)
Inductive nullable (A : Type) : Type :=
| null : nullable A
| value : A -> nullable A.
Arguments null {A}.
Arguments value {A} _.

(** [x ?? undefined] *)
Definition orUndefined {A : Type} (x : nullable A) : option A :=
  match x with
  | null => None
  | value a => Some a
  end.

Module Mint.
Record t : Type := mk {
  mintAuthority : nullable Buffer;
  supply : Z;
  decimals : Z;
  isInitialized : bool;
  freezeAuthority : nullable Buffer
}.
End Mint.

Module TransferFee.
Record t : Type := mk {
  epoch : Z;
  maximumFee : Z;
  transferFeeBasisPoints : Z
}.
End TransferFee.

Module TransferFeeConfig.
Record t : Type := mk {
  transferFeeConfigAuthority : nullable Buffer;
  withdrawWithheldAuthority : nullable Buffer;
  withheldAmount : Z;
  olderTransferFee : TransferFee.t;
  newerTransferFee : TransferFee.t
}.
End TransferFeeConfig.

(** The fields of web3.js's [EpochInfo] that the module reads. *)
Module EpochInfo.
Record t : Type := mk {
  epoch : float;
  slotsInEpoch : float;
  absoluteSlot : float
}.
End EpochInfo.

Module GetTransferAmountFee.
Record t : Type := mk {
  amount : BN.t;
  fee : option BN.t;
  expirationTime : option float
}.
End GetTransferAmountFee.

(** ** JavaScript built-ins *)

(** [Number(n)] for a bigint [n]: the binary64 value nearest to [n], ties to
    even, an infinity beyond the range. *)
Definition Number (n : Z) : float :=
  SF2Prim (binary_normalize prec emax n 0 false).

(** [Math.min(x, y)]: a NaN argument gives NaN, and [-0] is below [+0]. *)
Definition Math_min (x y : float) : float :=
  if is_nan x then x
  else if is_nan y then y
  else if (x <? y)%float then x
  else if (y <? x)%float then y
  else if is_zero x && get_sign x then x
  else y.

(** The order whose minimum [Math.min] takes on numbers: [x] comes first when
    it is below [y], or compares equal to [y] and is the negative zero or [y]
    is not. *)
Definition minOrder (x y : float) : bool :=
  (x <? y)%float
  || (negb (y <? x)%float
      && ((is_zero x && get_sign x) || negb (is_zero y && get_sign y))).

(** ** The fee engine *)

Definition POINT : Z := 10000.

(** The constant [nowFeeConfig] of [getTransferAmountFee]: the active tier. *)
Definition nowFeeConfig (feeConfig : TransferFeeConfig.t) (epochInfo : EpochInfo.t)
  : TransferFee.t :=
  if (EpochInfo.epoch epochInfo
      <? Number (TransferFee.epoch (TransferFeeConfig.newerTransferFee feeConfig)))%float
  then TransferFeeConfig.olderTransferFee feeConfig
  else TransferFeeConfig.newerTransferFee feeConfig.

(** The constant [expirationTime] of [getTransferAmountFee]. *)
Definition expirationTime (feeConfig : TransferFeeConfig.t) (epochInfo : EpochInfo.t)
  : option float :=
  if (EpochInfo.epoch epochInfo
      <? Number (TransferFee.epoch (TransferFeeConfig.newerTransferFee feeConfig)))%float
  then Some (((Number (TransferFee.epoch (TransferFeeConfig.newerTransferFee feeConfig))
               * EpochInfo.slotsInEpoch epochInfo
               - EpochInfo.absoluteSlot epochInfo) * 400) / 1000)%float
  else None.

(** The rest of [getTransferAmountFee], from [maxFee] on, as a function of the
    two constants computed before it. *)
Definition feeOnTier (amount : BN.t) (nowFeeConfig : TransferFee.t)
    (expirationTime : option float) (addFee : bool)
  : option GetTransferAmountFee.t :=
  let maxFee := BN.of_bigint_string (TransferFee.maximumFee nowFeeConfig) in
  if addFee then
    if TransferFee.transferFeeBasisPoints nowFeeConfig =? POINT then
      let nowMaxFee := BN.of_bigint_string (TransferFee.maximumFee nowFeeConfig) in
      Some (GetTransferAmountFee.mk (BN.add amount nowMaxFee) (Some nowMaxFee)
              expirationTime)
    else
      _TAmount ← BNDivCeil (BN.mul amount (BN.of_number POINT))
                   (BN.of_number (POINT - TransferFee.transferFeeBasisPoints nowFeeConfig));
      let nowMaxFee := BN.of_bigint_string (TransferFee.maximumFee nowFeeConfig) in
      let TAmount :=
        if BN.gt (BN.sub _TAmount amount) nowMaxFee then BN.add amount nowMaxFee
        else _TAmount in
      _fee ← BNDivCeil
               (BN.mul TAmount (BN.of_number (TransferFee.transferFeeBasisPoints nowFeeConfig)))
               (BN.of_number POINT);
      let fee := if BN.gt _fee maxFee then maxFee else _fee in
      Some (GetTransferAmountFee.mk TAmount (Some fee) expirationTime)
  else
    _fee ← BNDivCeil
             (BN.mul amount (BN.of_number (TransferFee.transferFeeBasisPoints nowFeeConfig)))
             (BN.of_number POINT);
    let fee := if BN.gt _fee maxFee then maxFee else _fee in
    Some (GetTransferAmountFee.mk amount (Some fee) expirationTime).

(** [getTransferAmountFee(amount, feeConfig, epochInfo, addFee)] *)
Definition getTransferAmountFee (amount : BN.t) (feeConfig : option TransferFeeConfig.t)
    (epochInfo : EpochInfo.t) (addFee : bool) : option GetTransferAmountFee.t :=
  match feeConfig with
  | None => Some (GetTransferAmountFee.mk amount None None)
  | Some feeConfig =>
      feeOnTier amount (nowFeeConfig feeConfig epochInfo)
        (expirationTime feeConfig epochInfo) addFee
  end.

(** [minExpirationTime(expirationTime1, expirationTime2)] *)
Definition minExpirationTime (expirationTime1 expirationTime2 : option float)
  : option float :=
  match expirationTime1, expirationTime2 with
  | None, _ => expirationTime2
  | _, None => expirationTime1
  | Some e1, Some e2 => Some (Math_min e1 e2)
  end.

(** *** Names of the specification *)


(** The [basisPoints] and [maximumFee] of the active tier. *)
Definition basisPoints (feeConfig : TransferFeeConfig.t) (epochInfo : EpochInfo.t) : Z :=
  TransferFee.transferFeeBasisPoints (nowFeeConfig feeConfig epochInfo).

Definition maximumFee (feeConfig : TransferFeeConfig.t) (epochInfo : EpochInfo.t) : Z :=
  TransferFee.maximumFee (nowFeeConfig feeConfig epochInfo).

(** ** The mint-fetching path *)

(** [getTransferFeeConfig(mint)] *)
Definition getTransferFeeConfig (mint : Mint.t) : nullable TransferFeeConfig.t := null.

(** An entry of [ReturnTypeFetchMultipleMintInfos]: the fields of the mint
    (spread into the entry by the source) and [feeConfig]. *)
Module MintInfo.
Record t : Type := mk {
  mint : Mint.t;
  feeConfig : option TransferFeeConfig.t
}.
End MintInfo.

(** The fields of an [AccountInfo<Buffer>] that the module reads. *)
Record AccountInfo (PublicKey : Type) : Type := mkAccountInfo {
  data : Buffer;
  owner : PublicKey
}.
Arguments mkAccountInfo {PublicKey} _ _.
Arguments data {PublicKey} _.
Arguments owner {PublicKey} _.

(** An element of the array that [getMultipleAccountsInfoWithCustomFlags]
    resolves to. *)
Record FetchedAccount (PublicKey : Type) : Type := mkFetchedAccount {
  pubkey : PublicKey;
  accountInfo : nullable (AccountInfo PublicKey)
}.
Arguments mkFetchedAccount {PublicKey} _ _.
Arguments pubkey {PublicKey} _.
Arguments accountInfo {PublicKey} _.

(** What the path takes from outside the module: web3.js's [PublicKey] with its
    [toString] (a base58 string) and [Connection], and
    [getMultipleAccountsInfoWithCustomFlags] of [../common], which reads the
    accounts of the given keys over the connection; [None] when its promise
    rejects. *)
Class Ledger : Type := {
  PublicKey : Type;
  toString : PublicKey -> string;
  Connection : Type;
  getMultipleAccountsInfoWithCustomFlags :
    Connection -> list PublicKey -> option (list (FetchedAccount PublicKey))
}.

(** [unpackMint(pubkey, accountInfo, owner)]: reading [accountInfo.data] throws
    on a [null] account; the mint returned is the same for every account. *)
Definition unpackMint `{Ledger} (pubkey : PublicKey)
    (accountInfo : nullable (AccountInfo PublicKey)) (owner : option PublicKey)
  : option Mint.t :=
  match accountInfo with
  | null => None
  | value info =>
      let data := data info in
      Some (Mint.mk null 0 0 true null)
  end.

(** [accountInfo?.owner] *)
Definition ownerOf `{Ledger} (accountInfo : nullable (AccountInfo PublicKey))
  : option PublicKey :=
  match accountInfo with
  | null => None
  | value info => Some (owner info)
  end.

(** The [for] loop of [fetchMultipleMintInfos] over [mintInfos], threading the
    object [mintK]. *)
Fixpoint fetchLoop `{Ledger} (mintInfos : list (FetchedAccount PublicKey))
    (mintK : gmap string MintInfo.t) : option (gmap string MintInfo.t) :=
  match mintInfos with
  | [] => Some mintK
  | i :: rest =>
      t ← unpackMint (pubkey i) (accountInfo i) (ownerOf (accountInfo i));
      fetchLoop rest
        (<[toString (pubkey i) := MintInfo.mk t (orUndefined (getTransferFeeConfig t))]> mintK)
  end.

(** [fetchMultipleMintInfos({ connection, mints })] *)
Definition fetchMultipleMintInfos `{Ledger} (connection : Connection)
    (mints : list PublicKey) : option (gmap string MintInfo.t) :=
  if (length mints =? 0)%nat then Some ∅
  else
    mintInfos ← getMultipleAccountsInfoWithCustomFlags connection mints;
    fetchLoop mintInfos ∅.

(** ** JavaScript objects and sets *)

(** A plain object used as a dictionary, with its properties in insertion
    order, which is the order of [Object.values] and [Object.entries]; the
    keys here are the base58 strings of public keys, never array indices. *)
Module JSObject.

Definition t (V : Type) : Type := list (string * V).

(** [o[k]], [None] for [undefined]. *)
Fixpoint get {V : Type} (k : string) (o : t V) : option V :=
  match o with
  | [] => None
  | (k', v) :: o' => if String.eqb k k' then Some v else get k o'
  end.

(** [o[k] = v]: a property that exists keeps its place. *)
Fixpoint set {V : Type} (k : string) (v : V) (o : t V) : t V :=
  match o with
  | [] => [(k, v)]
  | (k', v') :: o' =>
      if String.eqb k k' then (k', v) :: o' else (k', v') :: set k v o'
  end.

Definition keys {V : Type} (o : t V) : list string := map fst o.
Definition values {V : Type} (o : t V) : list V := map snd o.

(** [{ ...a, ...b }], and as well [for (const [k, v] of Object.entries(b)) a[k] = v]. *)
Definition spread {V : Type} (a b : t V) : t V :=
  fold_left (fun acc kv => set (fst kv) (snd kv) acc) b a.

End JSObject.

(** [[...new Set(l)]]: the elements of [l] in the order of their first
    occurrence. *)
Definition uniqueStrings (l : list string) : list string :=
  fold_left (fun seen x => if existsb (String.eqb x) seen then seen else seen ++ [x]) l [].

(** The order in which a [Set] enumerates what was added to it, stated by
    recursion on the list of additions: the head, then the first occurrences
    of the rest that differ from the head. *)
Fixpoint firstOccurrences (l : list string) : list string :=
  match l with
  | [] => []
  | x :: rest => x :: List.filter (fun y => negb (String.eqb y x)) (firstOccurrences rest)
  end.

(** ** Wrapped SOL and transaction building *)

(** The values of the enumeration [TxVersion] of [./type] that the module
    names, and [UnknownTxVersion] for any other run-time value, which the
    guards of the module test for. *)
Inductive TxVersion : Type :=
| V0 : TxVersion
| LEGACY : TxVersion
| UnknownTxVersion : TxVersion.

(** What the rest of the module takes from web3.js, from [../spl] and from
    [../token]: the types of instructions, signers, lookup tables and
    transactions with the operations called on them ([None] when one throws),
    [PublicKey]'s [equals] and constructor, the key [new PublicKey(WSOL.mint)],
    and [connection.getLatestBlockhash()] reduced to its [blockhash]. *)
Class Web3 `{Ledger} : Type := {
  equals : PublicKey -> PublicKey -> bool;
  newPublicKey : string -> option PublicKey;
  WSOL_MINT : PublicKey;
  TOKEN_PROGRAM_ID : PublicKey;
  TransactionInstruction : Type;
  Signer : Type;
  InstructionType : Type;
  closeAccount : InstructionType;
  makeCloseAccountInstruction :
    PublicKey -> PublicKey -> PublicKey -> PublicKey -> TransactionInstruction;
  AddressLookupTableAccount : Type;
  getLatestBlockhash : Connection -> option string;
  Transaction : Type;
  newTransaction : Transaction;
  Transaction_add : Transaction -> list TransactionInstruction -> option Transaction;
  Transaction_setFeePayer : Transaction -> PublicKey -> Transaction;
  Transaction_setRecentBlockhash : Transaction -> string -> Transaction;
  Transaction_sign : Transaction -> list Signer -> option Transaction;
  TransactionMessage : Type;
  newTransactionMessage :
    PublicKey -> string -> list TransactionInstruction -> TransactionMessage;
  MessageV0 : Type;
  compileToV0Message :
    TransactionMessage -> list (option AddressLookupTableAccount) -> option MessageV0;
  VersionedTransaction : Type;
  newVersionedTransaction : MessageV0 -> VersionedTransaction;
  VersionedTransaction_sign : VersionedTransaction -> list Signer -> option VersionedTransaction
}.

(** [CacheLTA] of [../common]. *)
Definition CacheLTA `{Web3} : Type := JSObject.t AddressLookupTableAccount.

(** The fields of [TokenAccount] ([./base]) that the module reads:
    [pubkey], [accountInfo.mint] and [accountInfo.amount]. *)
Module TokenAccount.
Record t `{Ledger} : Type := mk {
  pubkey : PublicKey;
  mint : PublicKey;
  amount : BN.t
}.
Arguments mk {_} _ _ _.
End TokenAccount.

(** [InnerTransaction] of [./type]; [lookupTableAddress] is optional. *)
Module InnerTransaction.
Record t `{Web3} : Type := mk {
  instructionTypes : list InstructionType;
  instructions : list TransactionInstruction;
  signers : list Signer;
  lookupTableAddress : option (list PublicKey)
}.
Arguments mk {_ _} _ _ _ _.
End InnerTransaction.

(** [InnerSimpleTransaction] of [./type]: the legacy form has no
    [lookupTableAddress], the V0 form has a [CacheLTA]. *)
Module InnerSimpleTransaction.
Record t `{Web3} : Type := mk {
  instructionTypes : list InstructionType;
  instructions : list TransactionInstruction;
  signers : list Signer;
  lookupTableAddress : option CacheLTA
}.
Arguments mk {_ _} _ _ _ _.
End InnerSimpleTransaction.

(** [splitTxAndSigners] and [getMultipleLookupTableInfo] of [../common], which
    are not among the sources; [None] when the promise rejects. *)
Class Common `{Web3} : Type := {
  splitTxAndSigners :
    Connection -> TxVersion -> PublicKey -> list InnerTransaction.t ->
    option (list InnerSimpleTransaction.t);
  getMultipleLookupTableInfo : Connection -> list PublicKey -> option CacheLTA
}.

(** The test of the two filters: [i.accountInfo.mint.equals(WSOL_MINT)]. *)
Definition isWSOL `{Web3} (i : TokenAccount.t) : bool :=
  equals (TokenAccount.mint i) WSOL_MINT.

(** [getWSOLAmount({ tokenAccounts })] *)
Definition getWSOLAmount `{Web3} (tokenAccounts : list TokenAccount.t) : BN.t :=
  let amounts := map TokenAccount.amount (List.filter isWSOL tokenAccounts) in
  let amount := fold_left (fun a b => BN.add a b) amounts (BN.of_number 0) in
  amount.

(** The constant [instructionsInfo] of [unwarpSol]: for each wrapped-SOL
    account its amount and the instruction that closes it. *)
Definition instructionsInfo `{Web3} (wallet payer : PublicKey)
    (tokenAccounts : list TokenAccount.t) : list (BN.t * TransactionInstruction) :=
  map (fun i =>
         (TokenAccount.amount i,
          makeCloseAccountInstruction TOKEN_PROGRAM_ID (TokenAccount.pubkey i) wallet payer))
    (List.filter isWSOL tokenAccounts).

(** [unwarpSol({ ownerInfo, tokenAccounts, makeTxVersion, connection })]: the
    [innerTransactions] of its result, whose [address] is the empty object. *)
Definition unwarpSol `{Common} (connection : Connection) (wallet payer : PublicKey)
    (tokenAccounts : list TokenAccount.t) (makeTxVersion : TxVersion)
  : option (list InnerSimpleTransaction.t) :=
  splitTxAndSigners connection makeTxVersion payer
    (map (fun i => InnerTransaction.mk [closeAccount] [snd i] [] None)
       (instructionsInfo wallet payer tokenAccounts)).

(** [_makeTransaction({ makeTxVersion, instructions, payer, recentBlockhash,
    signers, lookupTableInfos })] *)
Definition _makeTransaction `{Web3} (makeTxVersion : TxVersion)
    (instructions : list TransactionInstruction) (payer : PublicKey)
    (recentBlockhash : string) (signers : list Signer)
    (lookupTableInfos : list (option AddressLookupTableAccount))
  : option (VersionedTransaction + Transaction) :=
  match makeTxVersion with
  | LEGACY =>
      let tx := newTransaction in
      tx ← Transaction_add tx instructions;
      let tx := Transaction_setFeePayer tx payer in
      let tx := Transaction_setRecentBlockhash tx recentBlockhash in
      if (0 <? length signers)%nat
      then tx ← Transaction_sign tx signers; Some (inr tx)
      else Some (inr tx)
  | V0 =>
      let transactionMessage := newTransactionMessage payer recentBlockhash instructions in
      message ← compileToV0Message transactionMessage lookupTableInfos;
      let itemV := newVersionedTransaction message in
      itemV ← VersionedTransaction_sign itemV signers;
      Some (inl itemV)
  | UnknownTxVersion => None
  end.

(** The version that a transaction is of: [V0] for a [VersionedTransaction],
    [LEGACY] for a [Transaction]. *)
Definition versionOf {A B : Type} (tx : A + B) : TxVersion :=
  match tx with
  | inl _ => V0
  | inr _ => LEGACY
  end.

(** The guard of both builders: [makeTxVersion] is [V0] or [LEGACY]. *)
Definition validTxVersion (makeTxVersion : TxVersion) : bool :=
  match makeTxVersion with
  | V0 | LEGACY => true
  | UnknownTxVersion => false
  end.

(** [recentBlockhash ?? (await connection.getLatestBlockhash()).blockhash] *)
Definition blockhashOr `{Web3} (connection : Connection) (recentBlockhash : option string)
  : option string :=
  match recentBlockhash with
  | Some blockhash => Some blockhash
  | None => getLatestBlockhash connection
  end.

(** The [for] loop of [buildSimpleTransaction]: a transaction that fails to
    build is logged and left out. *)
Fixpoint buildSimpleLoop `{Web3} (makeTxVersion : TxVersion) (payer : PublicKey)
    (recentBlockhash : string) (addLookupTableInfo : option CacheLTA)
    (innerTransactions : list InnerSimpleTransaction.t)
    (txList : list (VersionedTransaction + Transaction))
  : list (VersionedTransaction + Transaction) :=
  match innerTransactions with
  | [] => txList
  | itemIx :: rest =>
      let lookupTableInfos :=
        JSObject.values
          (JSObject.spread (default [] addLookupTableInfo)
             (default [] (InnerSimpleTransaction.lookupTableAddress itemIx))) in
      match _makeTransaction makeTxVersion (InnerSimpleTransaction.instructions itemIx)
              payer recentBlockhash (InnerSimpleTransaction.signers itemIx)
              (map Some lookupTableInfos) with
      | Some tx =>
          buildSimpleLoop makeTxVersion payer recentBlockhash addLookupTableInfo rest
            (txList ++ [tx])
      | None =>
          buildSimpleLoop makeTxVersion payer recentBlockhash addLookupTableInfo rest txList
      end
  end.

(** [buildSimpleTransaction({ connection, makeTxVersion, payer,
    innerTransactions, recentBlockhash, addLookupTableInfo })] *)
Definition buildSimpleTransaction `{Web3} (connection : Connection)
    (makeTxVersion : TxVersion) (payer : PublicKey)
    (innerTransactions : list InnerSimpleTransaction.t)
    (recentBlockhash : option string) (addLookupTableInfo : option CacheLTA)
  : option (list (VersionedTransaction + Transaction)) :=
  if negb (validTxVersion makeTxVersion) then None
  else
    _recentBlockhash ← blockhashOr connection recentBlockhash;
    Some (buildSimpleLoop makeTxVersion payer _recentBlockhash addLookupTableInfo
            innerTransactions []).

(** The constant [lta] of [buildTransaction]: the lookup-table addresses of
    all the inner transactions, as strings, each once. *)
Definition lta `{Web3} (innerTransactions : list InnerTransaction.t) : list string :=
  uniqueStrings
    (map toString
       (concat (map (fun i => default [] (InnerTransaction.lookupTableAddress i))
                  innerTransactions))).

(** The loop that fills [needCacheLTA]: the addresses that the cache lacks,
    as keys again. *)
Fixpoint needCacheLoop `{Web3} (lta : list string) (_lookupTableCache : CacheLTA)
    (needCacheLTA : list PublicKey) : option (list PublicKey) :=
  match lta with
  | [] => Some needCacheLTA
  | item :: rest =>
      match JSObject.get item _lookupTableCache with
      | None =>
          key ← newPublicKey item;
          needCacheLoop rest _lookupTableCache (needCacheLTA ++ [key])
      | Some _ => needCacheLoop rest _lookupTableCache needCacheLTA
      end
  end.

(** The inner loop of [buildTransaction]: [_itemLTA], filled from the cache
    for the addresses of one inner transaction; an address the cache lacks is
    a property whose value is [undefined]. *)
Definition itemLTA `{Web3} (makeTxVersion : TxVersion) (itemIx : InnerTransaction.t)
    (_lookupTableCache : CacheLTA) : JSObject.t (option AddressLookupTableAccount) :=
  match makeTxVersion with
  | V0 =>
      fold_left
        (fun _itemLTA item =>
           JSObject.set (toString item) (JSObject.get (toString item) _lookupTableCache)
             _itemLTA)
        (default [] (InnerTransaction.lookupTableAddress itemIx)) []
  | _ => []
  end.

(** The second [for] loop of [buildTransaction]: a transaction that fails to
    build makes the whole call throw. *)
Fixpoint buildLoop `{Web3} (makeTxVersion : TxVersion) (payer : PublicKey)
    (recentBlockhash : string) (_lookupTableCache : CacheLTA)
    (innerTransactions : list InnerTransaction.t)
    (txList : list (VersionedTransaction + Transaction))
  : option (list (VersionedTransaction + Transaction)) :=
  match innerTransactions with
  | [] => Some txList
  | itemIx :: rest =>
      let _itemLTA := itemLTA makeTxVersion itemIx _lookupTableCache in
      tx ← _makeTransaction makeTxVersion (InnerTransaction.instructions itemIx) payer
             recentBlockhash (InnerTransaction.signers itemIx) (JSObject.values _itemLTA);
      buildLoop makeTxVersion payer recentBlockhash _lookupTableCache rest (txList ++ [tx])
  end.

(** What a call of [buildTransaction] leaves behind: the lookup-table cache,
    which is the caller's object when one is passed and is updated in place,
    and the transactions, [None] when the call throws. *)
Record BuildOutcome `{Web3} : Type := mkBuildOutcome {
  cacheAfter : CacheLTA;
  transactions : option (list (VersionedTransaction + Transaction))
}.
Arguments mkBuildOutcome {_ _} _ _.

(** [buildTransaction({ connection, makeTxVersion, payer, innerTransactions,
    recentBlockhash, lookupTableCache })] *)
Definition buildTransaction `{Common} (connection : Connection)
    (makeTxVersion : TxVersion) (payer : PublicKey)
    (innerTransactions : list InnerTransaction.t)
    (recentBlockhash : option string) (lookupTableCache : option CacheLTA)
  : BuildOutcome :=
  let untouched := default [] lookupTableCache in
  if negb (validTxVersion makeTxVersion) then mkBuildOutcome untouched None
  else
    match blockhashOr connection recentBlockhash with
    | None => mkBuildOutcome untouched None
    | Some _recentBlockhash =>
        let _lookupTableCache := default [] lookupTableCache in
        match needCacheLoop (lta innerTransactions) _lookupTableCache [] with
        | None => mkBuildOutcome untouched None
        | Some needCacheLTA =>
            match
              (if (0 <? length needCacheLTA)%nat
               then getMultipleLookupTableInfo connection needCacheLTA
               else Some [])
            with
            | None => mkBuildOutcome untouched None
            | Some lookupTableAccountsCache =>
                let _lookupTableCache :=
                  JSObject.spread _lookupTableCache lookupTableAccountsCache in
                mkBuildOutcome _lookupTableCache
                  (buildLoop makeTxVersion payer _recentBlockhash _lookupTableCache
                     innerTransactions [])
            end
        end
    end.

(** ** Inputs of the concrete runs *)

(** A configuration with a 1% tier capped at 5000 and, from epoch 502 on, a
    100% tier capped at 7000; an epoch before the switch and one after it. *)
Definition exampleFeeConfig : TransferFeeConfig.t :=
  TransferFeeConfig.mk null null 0
    (TransferFee.mk 400 5000 100) (TransferFee.mk 502 7000 10000).

Definition exampleEpochInfo : EpochInfo.t := EpochInfo.mk 500 432000 216000100.

Definition laterEpochInfo : EpochInfo.t := EpochInfo.mk 502 432000 216864000.



(** A ledger whose keys are their own strings and that finds every account it
    is asked for, and one that finds none. *)
Definition exampleLedger : Ledger := {|
  PublicKey := string;
  toString := fun key => key;
  Connection := unit;
  getMultipleAccountsInfoWithCustomFlags := fun _ keys =>
    Some (map (fun key => mkFetchedAccount key (value (mkAccountInfo [] key))) keys)
|}.

Definition emptyLedger : Ledger := {|
  PublicKey := string;
  toString := fun key => key;
  Connection := unit;
  getMultipleAccountsInfoWithCustomFlags := fun _ keys =>
    Some (map (fun key => mkFetchedAccount key null) keys)
|}.

Definition exampleMints : list string :=
  ["So11111111111111111111111111111111111111112";
   "EPjFWdd5AufqSSqeM2qN1xzybapC8G4wEGGkZwyTDt1v"]%string.

Definition exampleMintInfo : MintInfo.t :=
  MintInfo.mk (Mint.mk null 0 0 true null) None.

(** A configuration whose two tiers charge nothing. *)
Definition zeroFeeConfig : TransferFeeConfig.t :=
  TransferFeeConfig.mk null null 0 (TransferFee.mk 400 5000 0) (TransferFee.mk 502 7000 0).

(** A toy web3.js over [exampleLedger]: instructions, signers and tables are
    strings, a transaction is the list of what was put into it, an empty
    [add] and the compilation of a message with an [undefined] table throw. *)
Definition exampleWeb3 : @Web3 exampleLedger :=
  @Build_Web3 exampleLedger
    (* equals *) String.eqb
    (* newPublicKey *) (fun s => Some s)
    (* WSOL_MINT *) "So11111111111111111111111111111111111111112"%string
    (* TOKEN_PROGRAM_ID *) "TokenkegQfeZyiNwAJbNbGKPFXCWuBvf9Ss623VQ5DA"%string
    (* TransactionInstruction *) string
    (* Signer *) string
    (* InstructionType *) string
    (* closeAccount *) "closeAccount"%string
    (* makeCloseAccountInstruction *) (fun programId tokenAccount owner payer => tokenAccount)
    (* AddressLookupTableAccount *) string
    (* getLatestBlockhash *) (fun _ => Some "latest"%string)
    (* Transaction *) (list string)
    (* newTransaction *) []
    (* Transaction_add *)
    (fun tx instructions =>
       match instructions with
       | [] => None
       | _ => Some (tx ++ instructions)
       end)
    (* Transaction_setFeePayer *) (fun tx payer => tx ++ [payer])
    (* Transaction_setRecentBlockhash *) (fun tx blockhash => tx ++ [blockhash])
    (* Transaction_sign *) (fun tx signers => Some (tx ++ signers))
    (* TransactionMessage *) (list string)
    (* newTransactionMessage *)
    (fun payer blockhash instructions => payer :: blockhash :: instructions)
    (* MessageV0 *) (list string)
    (* compileToV0Message *)
    (fun message tables =>
       if forallb (fun table : option string =>
                     match table with Some _ => true | None => false end) tables
       then Some (message ++ omap (fun table => table) tables)
       else None)
    (* VersionedTransaction *) (list string)
    (* newVersionedTransaction *) (fun message => message)
    (* VersionedTransaction_sign *) (fun tx signers => Some (tx ++ signers)).

(** A toy [../common] over it: every table asked for is found. *)
Definition exampleCommon : @Common exampleLedger exampleWeb3 :=
  @Build_Common exampleLedger exampleWeb3
    (* splitTxAndSigners *)
    (fun _ _ _ innerTransactions =>
       Some (map (fun i =>
                    @InnerSimpleTransaction.mk exampleLedger exampleWeb3
                      (InnerTransaction.instructionTypes i) (InnerTransaction.instructions i)
                      (InnerTransaction.signers i) None)
               innerTransactions))
    (* getMultipleLookupTableInfo *)
    (fun _ keys => Some (map (fun key : string => (key, key)) keys)).

(** Two inner transactions that mention three lookup tables, one of them
    twice, and a cache that holds one of the three. *)
Definition exampleInner : list (@InnerTransaction.t exampleLedger exampleWeb3) :=
  [ @InnerTransaction.mk exampleLedger exampleWeb3 ["swap"%string] ["ix1"%string]
      ["alice"%string] (Some ["tableA"; "tableB"; "tableA"]%string);
    @InnerTransaction.mk exampleLedger exampleWeb3 ["close"%string] ["ix2"%string] []
      (Some ["tableC"; "tableB"]%string) ].

Definition exampleCache : @CacheLTA exampleLedger exampleWeb3 :=
  [("tableB"%string, "tableB"%string)].

(** ** Doubles of small integers *)



(** * Properties *)

(** ** Ceiling division *)

Lemma ceilDiv_bounds a b :
  0 < b -> b * (ceilDiv a b - 1) < a <= b * ceilDiv a b.
Proof.
  intros Hb. unfold ceilDiv.
  pose proof (Z.div_mod a b ltac:(lia)) as Hdm.
  pose proof (Z.mod_pos_bound a b Hb) as Hm.
  destruct (Z.eqb_spec (a mod b) 0); nia.
Qed.

Lemma ceilDiv_unique a b q :
  0 < b -> b * (q - 1) < a <= b * q -> ceilDiv a b = q.
Proof.
  intros Hb Hq. pose proof (ceilDiv_bounds a b Hb). nia.
Qed.

(** On a positive divisor [BNDivCeil] is the ceiling division, whatever the
    sign of the dividend: truncation already rounds a negative quotient up. *)
Lemma BNDivCeil_pos a b :
  0 < b -> BNDivCeil a b = Some (ceilDiv a b).
Proof.
  intros Hb. unfold BNDivCeil, BN.divmod.
  destruct (Z.eqb_spec b 0) as [->|_]; [lia|].
  f_equal. symmetry. apply ceilDiv_unique; [assumption|].
  unfold BN.gt, BN.add, BN.of_number, ZERO.
  pose proof (Z.quot_rem' a b) as Hqr.
  destruct (Z.gtb_spec (Z.rem a b) 0) as [Hr|Hr].
  - assert (0 <= a) by (destruct (Z_lt_le_dec a 0) as [Hn|]; [|lia];
      pose proof (Z.rem_nonpos a b ltac:(lia) ltac:(lia)); lia).
    pose proof (Z.rem_bound_pos a b ltac:(lia) Hb). nia.
  - destruct (Z_lt_le_dec a 0) as [Hn|Hp].
    + pose proof (Z.rem_bound_pos (- a) b ltac:(lia) Hb) as Hr'.
      rewrite Z.rem_opp_l in Hr' by lia. nia.
    + pose proof (Z.rem_bound_pos a b Hp Hb).
      assert (Z.rem a b = 0) by lia. nia.
Qed.

Lemma BNDivCeil_nonzero a b :
  b <> 0 ->
  BNDivCeil a b = Some (if Z.rem a b >? 0 then Z.quot a b + 1 else Z.quot a b).
Proof.
  intros Hb. unfold BNDivCeil, BN.divmod.
  destruct (Z.eqb_spec b 0); [contradiction | reflexivity].
Qed.

Lemma BNDivCeil_zero a : BNDivCeil a 0 = None.
Proof. reflexivity. Qed.

Lemma BNDivCeil_POINT a : BNDivCeil a POINT = Some (ceilDiv a 10000).
Proof. apply BNDivCeil_pos. reflexivity. Qed.

(** C6. For a non-negative [a] and a positive [b], [BNDivCeil a b] is the
    floor quotient of [a] by [b] when [b] divides [a], and that quotient plus
    one when it does not: the exact integer ceiling of [a / b]. *)
Theorem BNDivCeil_ceiling (a b : Z) :
  0 <= a -> 0 < b ->
  BNDivCeil a b = Some (if a mod b =? 0 then a / b else a / b + 1).
Proof.
  intros _ Hb. exact (BNDivCeil_pos a b Hb).
Qed.

(** The three values the specification lists: [BNDivCeil(10, 3) = 4],
    [BNDivCeil(9, 3) = 3] and [BNDivCeil(0, 5) = 0]. *)
Lemma BNDivCeil_ceiling_examples :
  BNDivCeil 10 3 = Some 4 /\ BNDivCeil 9 3 = Some 3 /\ BNDivCeil 0 5 = Some 0.
Proof.
  split; [| split].
  - exact (BNDivCeil_ceiling 10 3 ltac:(lia) ltac:(lia)).
  - exact (BNDivCeil_ceiling 9 3 ltac:(lia) ltac:(lia)).
  - exact (BNDivCeil_ceiling 0 5 ltac:(lia) ltac:(lia)).
Defined.

(** On a negative divisor [BNDivCeil] is not the ceiling: it still adds one
    to the truncated quotient when the remainder is positive. *)
Example BNDivCeil_negative_divisor :
  BNDivCeil 10000 (-3) = Some (-3332) /\ ceilDiv 10000 (-3) = -3333.
Proof. split; reflexivity. Qed.

(** ** The branches of the fee engine *)

Lemma gt_min (x m : Z) : (if BN.gt x m then m else x) = Z.min x m.
Proof. unfold BN.gt. destruct (Z.gtb_spec x m); lia. Qed.

(** The gross-up branch for a tier below or above 100%, once the candidate
    gross amount [TAmount0] is known. *)
Lemma feeOnTier_gross_up (amount : BN.t) (tier : TransferFee.t) (exp : option float)
    (TAmount0 : Z) :
  TransferFee.transferFeeBasisPoints tier <> 10000 ->
  BNDivCeil (amount * 10000) (10000 - TransferFee.transferFeeBasisPoints tier)
  = Some TAmount0 ->
  feeOnTier amount tier exp true
  = Some (GetTransferAmountFee.mk
            (if TAmount0 - amount >? TransferFee.maximumFee tier
             then amount + TransferFee.maximumFee tier else TAmount0)
            (Some (Z.min
                     (ceilDiv
                        ((if TAmount0 - amount >? TransferFee.maximumFee tier
                          then amount + TransferFee.maximumFee tier else TAmount0)
                         * TransferFee.transferFeeBasisPoints tier) 10000)
                     (TransferFee.maximumFee tier)))
            exp).
Proof.
  intros Hbp HT0. unfold feeOnTier.
  destruct (Z.eqb_spec (TransferFee.transferFeeBasisPoints tier) POINT) as [E|_];
    [contradiction|].
  unfold BN.mul, BN.of_number, BN.of_bigint_string, BN.sub, BN.add, BN.gt, POINT.
  rewrite HT0. cbn [mbind option_bind].
  change 10000 with POINT at 2. rewrite BNDivCeil_POINT. cbn [mbind option_bind].
  rewrite <- (gt_min _ (TransferFee.maximumFee tier)). reflexivity.
Qed.

(** The fee-only branch. *)
Lemma feeOnTier_fee_only (amount : BN.t) (tier : TransferFee.t) (exp : option float) :
  feeOnTier amount tier exp false
  = Some (GetTransferAmountFee.mk amount
            (Some (Z.min (ceilDiv (amount * TransferFee.transferFeeBasisPoints tier) 10000)
                     (TransferFee.maximumFee tier)))
            exp).
Proof.
  unfold feeOnTier, BN.mul, BN.of_number, BN.of_bigint_string.
  rewrite BNDivCeil_POINT. cbn [mbind option_bind]. rewrite gt_min. reflexivity.
Qed.


(** The body reads only the [transferFeeBasisPoints] and the [maximumFee] of
    the tier it is given. *)
Lemma feeOnTier_reads (amount : BN.t) (t1 t2 : TransferFee.t) (exp : option float)
    (addFee : bool) :
  TransferFee.transferFeeBasisPoints t1 = TransferFee.transferFeeBasisPoints t2 ->
  TransferFee.maximumFee t1 = TransferFee.maximumFee t2 ->
  feeOnTier amount t1 exp addFee = feeOnTier amount t2 exp addFee.
Proof. intros Hbp Hmax. unfold feeOnTier. rewrite Hbp, Hmax. reflexivity. Qed.

(** ** The two modes *)

(** C7. Without a fee configuration the amount comes back unchanged, with no
    fee and no expiration time, in both modes. *)
Theorem getTransferAmountFee_no_config (amount : BN.t) (epochInfo : EpochInfo.t)
    (addFee : bool) :
  getTransferAmountFee amount None epochInfo addFee
  = Some (GetTransferAmountFee.mk amount None None).
Proof. reflexivity. Qed.

(** C1. In fee-only mode ([addFee = false]) the amount comes back unchanged
    and the fee is the ceiling of [amount * basisPoints / 10000] capped at
    [maximumFee], both taken from the active tier; so the fee never exceeds
    [maximumFee], and it is the uncapped value whenever that is within the
    cap. *)
Theorem getTransferAmountFee_fee_only (amount : BN.t) (feeConfig : TransferFeeConfig.t)
    (epochInfo : EpochInfo.t) :
  exists fee : Z,
    getTransferAmountFee amount (Some feeConfig) epochInfo false
    = Some (GetTransferAmountFee.mk amount (Some fee) (expirationTime feeConfig epochInfo))
    /\ BNDivCeil (amount * basisPoints feeConfig epochInfo) 10000
        = Some (ceilDiv (amount * basisPoints feeConfig epochInfo) 10000)
    /\ fee = Z.min (ceilDiv (amount * basisPoints feeConfig epochInfo) 10000)
                   (maximumFee feeConfig epochInfo)
    /\ fee <= maximumFee feeConfig epochInfo
    /\ (ceilDiv (amount * basisPoints feeConfig epochInfo) 10000
          <= maximumFee feeConfig epochInfo ->
        fee = ceilDiv (amount * basisPoints feeConfig epochInfo) 10000).
Proof.
  eexists. split; [| split; [| split; [reflexivity | split]]].
  - unfold getTransferAmountFee, feeOnTier, BN.mul, BN.of_number, BN.of_bigint_string.
    rewrite BNDivCeil_POINT. simpl. rewrite gt_min. reflexivity.
  - apply BNDivCeil_pos. lia.
  - apply Z.le_min_r.
  - intros H. apply Z.min_l. exact H.
Qed.

(** C4. On a 100% tier ([basisPoints = 10000]) the gross-up mode returns
    [amount + maximumFee] as the gross amount and [maximumFee] as the fee. *)
Theorem getTransferAmountFee_full_fee_tier (amount : BN.t)
    (feeConfig : TransferFeeConfig.t) (epochInfo : EpochInfo.t) :
  basisPoints feeConfig epochInfo = 10000 ->
  getTransferAmountFee amount (Some feeConfig) epochInfo true
  = Some (GetTransferAmountFee.mk (amount + maximumFee feeConfig epochInfo)
            (Some (maximumFee feeConfig epochInfo))
            (expirationTime feeConfig epochInfo)).
Proof.
  intros Hbp. unfold getTransferAmountFee, feeOnTier.
  unfold basisPoints in Hbp. rewrite Hbp. reflexivity.
Qed.

(** C2. On a tier whose [basisPoints] is not 10000, the gross-up mode
    ([addFee = true]) computes the candidate [TAmount0] as the ceiling division
    of [amount * 10000] by [10000 - basisPoints], returns [amount + maximumFee]
    as the gross amount when [TAmount0 - amount > maximumFee] and [TAmount0]
    otherwise, and returns as the fee the ceiling division of
    [gross * basisPoints] by 10000, capped at [maximumFee]. The ceiling
    division is [BNDivCeil]; it is the mathematical ceiling for the fee, and
    for the candidate as soon as [basisPoints] is at most 10000. *)
Theorem getTransferAmountFee_gross_up (amount : BN.t) (feeConfig : TransferFeeConfig.t)
    (epochInfo : EpochInfo.t) :
  basisPoints feeConfig epochInfo <> 10000 ->
  exists TAmount0 TAmount rawFee : Z,
    BNDivCeil (amount * 10000) (10000 - basisPoints feeConfig epochInfo) = Some TAmount0
    /\ TAmount = (if TAmount0 - amount >? maximumFee feeConfig epochInfo
                 then amount + maximumFee feeConfig epochInfo else TAmount0)
    /\ BNDivCeil (TAmount * basisPoints feeConfig epochInfo) 10000 = Some rawFee
    /\ getTransferAmountFee amount (Some feeConfig) epochInfo true
       = Some (GetTransferAmountFee.mk TAmount
                 (Some (Z.min rawFee (maximumFee feeConfig epochInfo)))
                 (expirationTime feeConfig epochInfo))
    /\ rawFee = ceilDiv (TAmount * basisPoints feeConfig epochInfo) 10000
    /\ (basisPoints feeConfig epochInfo <= 10000 ->
        TAmount0 = ceilDiv (amount * 10000) (10000 - basisPoints feeConfig epochInfo)).
Proof.
  intros Hbp.
  assert (Hd : 10000 - basisPoints feeConfig epochInfo <> 0) by lia.
  pose proof (BNDivCeil_nonzero (amount * 10000) _ Hd) as HT0.
  eexists _, _, _. split; [exact HT0 |]. split; [reflexivity |].
  split; [apply BNDivCeil_pos; lia |]. split; [| split; [reflexivity |]].
  - unfold getTransferAmountFee. apply feeOnTier_gross_up; assumption.
  - intros Hle. rewrite BNDivCeil_pos in HT0 by lia. congruence.
Qed.

(** C3. The two modes agree: when the amount is non-negative, the gross-up
    mode returns a result, and the fee-only mode applied to the gross amount
    of that result returns the same fee (indeed the same record). *)
Theorem getTransferAmountFee_round_trip (amount : BN.t) (feeConfig : TransferFeeConfig.t)
    (epochInfo : EpochInfo.t) :
  0 <= amount ->
  exists r : GetTransferAmountFee.t,
    getTransferAmountFee amount (Some feeConfig) epochInfo true = Some r
    /\ exists r' : GetTransferAmountFee.t,
         getTransferAmountFee (GetTransferAmountFee.amount r) (Some feeConfig)
           epochInfo false = Some r'
         /\ GetTransferAmountFee.fee r' = GetTransferAmountFee.fee r
         /\ r' = r.
Proof.
  intros Hamount. unfold getTransferAmountFee.
  set (tier := nowFeeConfig feeConfig epochInfo).
  set (exp := expirationTime feeConfig epochInfo).
  destruct (Z.eq_dec (TransferFee.transferFeeBasisPoints tier) 10000) as [E|N].
  - eexists. split.
    + unfold feeOnTier. rewrite E. reflexivity.
    + eexists. split; [apply feeOnTier_fee_only |]. cbn.
      rewrite E. unfold BN.add, BN.of_bigint_string.
      assert (Hc : ceilDiv ((amount + TransferFee.maximumFee tier) * 10000) 10000
                   = amount + TransferFee.maximumFee tier)
        by (apply ceilDiv_unique; lia).
      rewrite Hc, Z.min_r by lia. split; reflexivity.
  - assert (Hd : 10000 - TransferFee.transferFeeBasisPoints tier <> 0) by lia.
    pose proof (BNDivCeil_nonzero (amount * 10000) _ Hd) as HT0.
    eexists. split; [apply (feeOnTier_gross_up _ _ _ _ N HT0) |].
    eexists. split; [apply feeOnTier_fee_only |]. split; reflexivity.
Qed.

(** C9. Gross-up never under-delivers: on a tier with [basisPoints] at most
    10000 the gross-up mode returns a gross amount and a fee with
    [gross - fee >= amount]. *)
Theorem getTransferAmountFee_gross_up_nets_target (amount : BN.t)
    (feeConfig : TransferFeeConfig.t) (epochInfo : EpochInfo.t) :
  0 <= amount ->
  0 <= basisPoints feeConfig epochInfo <= 10000 ->
  0 <= maximumFee feeConfig epochInfo ->
  exists (TAmount fee : Z),
    getTransferAmountFee amount (Some feeConfig) epochInfo true
    = Some (GetTransferAmountFee.mk TAmount (Some fee)
              (expirationTime feeConfig epochInfo))
    /\ TAmount - fee >= amount.
Proof.
  intros _ [_ Hbp] _. unfold basisPoints, maximumFee in *. unfold getTransferAmountFee.
  set (tier := nowFeeConfig feeConfig epochInfo) in *.
  set (exp := expirationTime feeConfig epochInfo).
  set (bp := TransferFee.transferFeeBasisPoints tier) in *.
  set (maxFee := TransferFee.maximumFee tier).
  destruct (Z.eq_dec bp 10000) as [E|N].
  - exists (amount + maxFee), maxFee. split; [| lia].
    unfold feeOnTier. fold bp. rewrite E. reflexivity.
  - assert (Hd : 0 < 10000 - bp) by lia.
    pose proof (BNDivCeil_pos (amount * 10000) _ Hd) as HT0.
    pose proof (ceilDiv_bounds (amount * 10000) _ Hd) as HB.
    set (T0 := ceilDiv (amount * 10000) (10000 - bp)) in *.
    eexists _, _. split; [apply (feeOnTier_gross_up _ _ _ _ N HT0) |].
    fold bp maxFee.
    destruct (Z.gtb_spec (T0 - amount) maxFee) as [Hclamp|Hfit].
    + pose proof (Z.le_min_r (ceilDiv ((amount + maxFee) * bp) 10000) maxFee). lia.
    + pose proof (Z.le_min_l (ceilDiv (T0 * bp) 10000) maxFee) as Hmin.
      pose proof (ceilDiv_bounds (T0 * bp) 10000 ltac:(lia)) as HC.
      set (c := ceilDiv (T0 * bp) 10000) in *.
      assert (c <= T0 - amount) by nia. lia.
Qed.

(** ** The order of doubles *)

Section FloatOrder.

Lemma SFcompare_antisym (x y : spec_float) :
  SFcompare y x = option_map CompOpp (SFcompare x y).
Proof.
  destruct x as [sx|sx| |sx mx ex], y as [sy|sy| |sy my ey];
    try destruct sx; try destruct sy; try reflexivity.
  all: cbn; rewrite (Z.compare_antisym ey ex); destruct (ey ?= ex)%Z; cbn;
    try reflexivity.
  all: rewrite ?CompOpp_involutive, Pos.compare_cont_antisym; reflexivity.
Qed.

Lemma SFcompare_refl (x : spec_float) :
  SFcompare x x = None \/ SFcompare x x = Some Eq.
Proof.
  pose proof (SFcompare_antisym x x) as H.
  destruct (SFcompare x x) as [[]|]; cbn in H; try discriminate; auto.
Qed.

Lemma SFcompare_nan_l (x y : spec_float) : SFcompare x x = None -> SFcompare x y = None.
Proof. destruct x as [[]|[]| |[] ? ?]; try discriminate; reflexivity. Qed.

Lemma SFcompare_nan_r (x y : spec_float) : SFcompare x x = None -> SFcompare y x = None.
Proof.
  intros H. rewrite SFcompare_antisym, (SFcompare_nan_l x y H). reflexivity.
Qed.

Lemma SFcompare_some (x y : spec_float) :
  SFcompare x x = Some Eq -> SFcompare y y = Some Eq ->
  exists c, SFcompare x y = Some c.
Proof.
  destruct x as [[]|[]| |[] ? ?], y as [[]|[]| |[] ? ?]; try discriminate;
    intros _ _; eexists; reflexivity.
Qed.

Lemma is_nan_true (x : float) : is_nan x = true -> SFcompare (Prim2SF x) (Prim2SF x) = None.
Proof.
  unfold is_nan. rewrite FloatAxioms.eqb_spec. unfold SFeqb.
  destruct (SFcompare_refl (Prim2SF x)) as [H|H]; rewrite H; [reflexivity | discriminate].
Qed.

Lemma is_nan_false (x : float) :
  is_nan x = false -> SFcompare (Prim2SF x) (Prim2SF x) = Some Eq.
Proof.
  unfold is_nan. rewrite FloatAxioms.eqb_spec. unfold SFeqb.
  destruct (SFcompare_refl (Prim2SF x)) as [H|H]; rewrite H; [discriminate | reflexivity].
Qed.

Lemma ltb_irrefl (x : float) : (x <? x)%float = false.
Proof.
  rewrite FloatAxioms.ltb_spec. unfold SFltb.
  destruct (SFcompare_refl (Prim2SF x)) as [H|H]; rewrite H; reflexivity.
Qed.

Lemma ltb_asym (x y : float) : (x <? y)%float = true -> (y <? x)%float = false.
Proof.
  rewrite !FloatAxioms.ltb_spec. unfold SFltb. rewrite (SFcompare_antisym (Prim2SF x) (Prim2SF y)).
  destruct (SFcompare (Prim2SF x) (Prim2SF y)) as [[]|]; cbn; congruence.
Qed.

Lemma ltb_nan_l (x y : float) : is_nan x = true -> (x <? y)%float = false.
Proof.
  intros H. rewrite FloatAxioms.ltb_spec. unfold SFltb.
  rewrite (SFcompare_nan_l _ (Prim2SF y) (is_nan_true x H)). reflexivity.
Qed.

Lemma ltb_nan_r (x y : float) : is_nan x = true -> (y <? x)%float = false.
Proof.
  intros H. rewrite FloatAxioms.ltb_spec. unfold SFltb.
  rewrite (SFcompare_nan_r _ (Prim2SF y) (is_nan_true x H)). reflexivity.
Qed.

Lemma leb_refl (x : float) : is_nan x = false -> (x <=? x)%float = true.
Proof.
  intros H. rewrite FloatAxioms.leb_spec. unfold SFleb. rewrite (is_nan_false x H). reflexivity.
Qed.

Lemma ltb_leb (x y : float) : (x <? y)%float = true -> (x <=? y)%float = true.
Proof.
  rewrite FloatAxioms.ltb_spec, FloatAxioms.leb_spec. unfold SFltb, SFleb.
  destruct (SFcompare (Prim2SF x) (Prim2SF y)) as [[]|]; congruence.
Qed.

(** Of two comparable doubles neither of which is below the other, each is at
    most the other. *)
Lemma not_ltb_leb (x y : float) :
  is_nan x = false -> is_nan y = false ->
  (x <? y)%float = false -> (y <? x)%float = false ->
  (x <=? y)%float = true /\ (y <=? x)%float = true.
Proof.
  intros Hx Hy. rewrite !FloatAxioms.ltb_spec, !FloatAxioms.leb_spec. unfold SFltb, SFleb.
  rewrite (SFcompare_antisym (Prim2SF x) (Prim2SF y)).
  destruct (SFcompare_some _ _ (is_nan_false x Hx) (is_nan_false y Hy)) as [c ->].
  destruct c; cbn; intros; try discriminate; split; reflexivity.
Qed.

End FloatOrder.

(** ** [Number] on the integers below [2^53] *)

Section NumberExact.

















End NumberExact.

(** ** Tier selection *)






(** ** [Math.min] and [minExpirationTime] *)

Lemma Math_min_cases (x y : float) : Math_min x y = x \/ Math_min x y = y.
Proof.
  unfold Math_min.
  destruct (is_nan x); [auto |]. destruct (is_nan y); [auto |].
  destruct (x <? y)%float; [auto |]. destruct (y <? x)%float; [auto |].
  destruct (is_zero x && get_sign x); auto.
Qed.

(** Neither argument is strictly below [Math.min] of the two. *)
Lemma Math_min_lower (x y : float) :
  (x <? Math_min x y)%float = false /\ (y <? Math_min x y)%float = false.
Proof.
  unfold Math_min.
  destruct (is_nan x) eqn:Nx; [split; [apply ltb_irrefl | apply ltb_nan_r, Nx] |].
  destruct (is_nan y) eqn:Ny; [split; [apply ltb_nan_r, Ny | apply ltb_irrefl] |].
  destruct (x <? y)%float eqn:Lxy; [split; [apply ltb_irrefl | apply ltb_asym, Lxy] |].
  destruct (y <? x)%float eqn:Lyx; [split; [exact Lxy | apply ltb_irrefl] |].
  destruct (is_zero x && get_sign x); split;
    first [apply ltb_irrefl | assumption].
Qed.

(** On two numbers (no NaN), [Math.min] is at most each of them. *)
Lemma Math_min_le (x y : float) :
  is_nan x = false -> is_nan y = false ->
  (Math_min x y <=? x)%float = true /\ (Math_min x y <=? y)%float = true.
Proof.
  intros Nx Ny. unfold Math_min. rewrite Nx, Ny.
  destruct (x <? y)%float eqn:Lxy; [split; [apply leb_refl, Nx | apply ltb_leb, Lxy] |].
  destruct (y <? x)%float eqn:Lyx; [split; [apply ltb_leb, Lyx | apply leb_refl, Ny] |].
  destruct (not_ltb_leb x y Nx Ny Lxy Lyx) as [Hxy Hyx].
  destruct (is_zero x && get_sign x); split;
    first [apply leb_refl; assumption | assumption].
Qed.

(** C8. [minExpirationTime] returns the other argument when one is absent
    (so absent when both are), and the smaller of the two when both are
    present: one of the two, below which neither of them lies, and at most each
    of them when both are numbers. In particular it maps
    [(undefined, undefined)] to [undefined], [(5, undefined)] to [5] and
    [(5, 3)] to [3]. *)
Theorem minExpirationTime_spec :
  (forall b : option float, minExpirationTime None b = b)
  /\ (forall a : option float, minExpirationTime a None = a)
  /\ (forall a b : float,
        exists m : float,
          minExpirationTime (Some a) (Some b) = Some m
          /\ (m = a \/ m = b)
          /\ (a <? m)%float = false /\ (b <? m)%float = false
          /\ (is_nan a = false -> is_nan b = false ->
              (m <=? a)%float = true /\ (m <=? b)%float = true))
  /\ minExpirationTime None None = None
  /\ minExpirationTime (Some 5%float) None = Some 5%float
  /\ minExpirationTime (Some 5%float) (Some 3%float) = Some 3%float.
Proof.
  split; [reflexivity |]. split; [intros [a|]; reflexivity |].
  split; [| repeat split; reflexivity].
  intros a b. exists (Math_min a b). split; [reflexivity |].
  split; [apply Math_min_cases |].
  split; [apply Math_min_lower |]. split; [apply Math_min_lower |].
  apply Math_min_le.
Qed.


(** ** The mint-fetching path *)

Section MintFetching.

Context `{Ledger}.

Lemma fetchLoop_feeConfig (mintInfos : list (FetchedAccount PublicKey)) :
  forall mintK res : gmap string MintInfo.t,
    map_Forall (fun _ e => MintInfo.feeConfig e = None) mintK ->
    fetchLoop mintInfos mintK = Some res ->
    map_Forall (fun _ e => MintInfo.feeConfig e = None) res.
Proof.
  induction mintInfos as [| i rest IH]; intros mintK res Hinv Hloop.
  - injection Hloop as <-. exact Hinv.
  - cbn [fetchLoop] in Hloop.
    destruct (unpackMint (pubkey i) (accountInfo i) (ownerOf (accountInfo i)))
      as [t|]; [| discriminate].
    cbn [mbind option_bind] in Hloop.
    refine (IH _ _ _ Hloop).
    apply map_Forall_insert_2; [reflexivity | exact Hinv].
Qed.

(** The loop returns exactly when every fetched account is present. *)
Lemma fetchLoop_returns (mintInfos : list (FetchedAccount PublicKey)) :
  forall mintK : gmap string MintInfo.t,
    is_Some (fetchLoop mintInfos mintK)
    <-> Forall (fun i => accountInfo i <> null) mintInfos.
Proof.
  induction mintInfos as [| i rest IH]; intros mintK.
  - cbn. split; [constructor | eauto].
  - cbn [fetchLoop]. rewrite Forall_cons.
    destruct (accountInfo i) as [| info]; cbn.
    + split; [intros [? ?]; discriminate | intros [Hnull _]; contradiction].
    + rewrite IH.
      split; [intros Hrest; split; [discriminate | exact Hrest] | intros [_ Hrest]; exact Hrest].
Qed.

(** C10. [getTransferFeeConfig] returns [null] for every mint; so every entry
    of the object that [fetchMultipleMintInfos] returns has [feeConfig]
    undefined, and the fee engine called with the entry's [feeConfig] answers
    in its no-fee-extension mode: the amount unchanged, no fee and no
    expiration time. *)
Theorem fetchMultipleMintInfos_no_feeConfig (connection : Connection)
    (mints : list PublicKey) (mintK : gmap string MintInfo.t) (key : string)
    (entry : MintInfo.t) :
  fetchMultipleMintInfos connection mints = Some mintK ->
  mintK !! key = Some entry ->
  (forall mint : Mint.t, getTransferFeeConfig mint = null)
  /\ MintInfo.feeConfig entry = None
  /\ forall (amount : BN.t) (epochInfo : EpochInfo.t) (addFee : bool),
       getTransferAmountFee amount (MintInfo.feeConfig entry) epochInfo addFee
       = Some (GetTransferAmountFee.mk amount None None).
Proof.
  intros Hfetch Hkey.
  assert (Hnone : MintInfo.feeConfig entry = None).
  { unfold fetchMultipleMintInfos in Hfetch.
    destruct (length mints =? 0)%nat.
    - injection Hfetch as <-. rewrite lookup_empty in Hkey. discriminate.
    - destruct (getMultipleAccountsInfoWithCustomFlags connection mints)
        as [mintInfos|]; [| discriminate].
      cbn [mbind option_bind] in Hfetch.
      apply (fetchLoop_feeConfig mintInfos ∅ mintK (map_Forall_empty _) Hfetch key entry Hkey). }
  split; [reflexivity |]. split; [exact Hnone |].
  intros amount epochInfo addFee. rewrite Hnone. reflexivity.
Qed.

End MintFetching.

(** ** Concrete runs *)

Lemma getTransferAmountFee_gross_up_witness :
  basisPoints exampleFeeConfig exampleEpochInfo <> 10000
  /\ BNDivCeil (1000000 * 10000) (10000 - 100) = Some 1010102
  /\ getTransferAmountFee 1000000 (Some exampleFeeConfig) exampleEpochInfo true
     = Some (GetTransferAmountFee.mk 1005000 (Some 5000) (Some 345560%float)).
Proof.
  assert (Hbp : basisPoints exampleFeeConfig exampleEpochInfo <> 10000)
    by (vm_compute; discriminate).
  destruct (getTransferAmountFee_gross_up 1000000 exampleFeeConfig exampleEpochInfo Hbp)
    as (TAmount0 & TAmount & rawFee & HT0 & HT & _ & Hres & Hraw & _).
  split; [exact Hbp |]. split; [reflexivity |].
  rewrite Hres. vm_compute in HT0. injection HT0 as <-.
  subst rawFee TAmount. reflexivity.
Defined.

Lemma getTransferAmountFee_round_trip_witness :
  exists r : GetTransferAmountFee.t,
    getTransferAmountFee 1000000 (Some exampleFeeConfig) exampleEpochInfo true = Some r
    /\ exists r' : GetTransferAmountFee.t,
         getTransferAmountFee (GetTransferAmountFee.amount r) (Some exampleFeeConfig)
           exampleEpochInfo false = Some r'
         /\ GetTransferAmountFee.fee r' = GetTransferAmountFee.fee r
         /\ r' = r.
Proof.
  apply (getTransferAmountFee_round_trip 1000000 exampleFeeConfig exampleEpochInfo).
  lia.
Defined.

Lemma getTransferAmountFee_full_fee_tier_witness :
  basisPoints exampleFeeConfig laterEpochInfo = 10000
  /\ getTransferAmountFee 1000000 (Some exampleFeeConfig) laterEpochInfo true
     = Some (GetTransferAmountFee.mk 1007000 (Some 7000) None).
Proof.
  split; [reflexivity |].
  exact (getTransferAmountFee_full_fee_tier 1000000 exampleFeeConfig laterEpochInfo
           eq_refl).
Defined.

Lemma getTransferAmountFee_gross_up_nets_target_witness :
  exists (TAmount fee : Z),
    getTransferAmountFee 1000000 (Some exampleFeeConfig) exampleEpochInfo true
    = Some (GetTransferAmountFee.mk TAmount (Some fee)
              (expirationTime exampleFeeConfig exampleEpochInfo))
    /\ TAmount - fee >= 1000000.
Proof.
  apply (getTransferAmountFee_gross_up_nets_target 1000000 exampleFeeConfig
           exampleEpochInfo).
  - lia.
  - change (basisPoints exampleFeeConfig exampleEpochInfo) with 100. lia.
  - change (maximumFee exampleFeeConfig exampleEpochInfo) with 5000. lia.
Defined.

Lemma fetchMultipleMintInfos_no_feeConfig_witness :
  @fetchMultipleMintInfos exampleLedger tt exampleMints
  = Some (<["EPjFWdd5AufqSSqeM2qN1xzybapC8G4wEGGkZwyTDt1v"%string := exampleMintInfo]>
            (<["So11111111111111111111111111111111111111112"%string := exampleMintInfo]> ∅))
  /\ MintInfo.feeConfig exampleMintInfo = None
  /\ getTransferAmountFee 1000000 (MintInfo.feeConfig exampleMintInfo) exampleEpochInfo true
     = Some (GetTransferAmountFee.mk 1000000 None None).
Proof.
  assert (Hfetch :
    @fetchMultipleMintInfos exampleLedger tt exampleMints
    = Some (<["EPjFWdd5AufqSSqeM2qN1xzybapC8G4wEGGkZwyTDt1v"%string := exampleMintInfo]>
              (<["So11111111111111111111111111111111111111112"%string := exampleMintInfo]> ∅)))
    by reflexivity.
  assert (Hkey :
    (<["EPjFWdd5AufqSSqeM2qN1xzybapC8G4wEGGkZwyTDt1v"%string := exampleMintInfo]>
       (<["So11111111111111111111111111111111111111112"%string := exampleMintInfo]> ∅)
     : gmap string MintInfo.t)
    !! "So11111111111111111111111111111111111111112"%string = Some exampleMintInfo)
    by (vm_compute; reflexivity).
  destruct (@fetchMultipleMintInfos_no_feeConfig exampleLedger tt exampleMints _ _ _
              Hfetch Hkey) as (_ & Hnone & Hfee).
  split; [exact Hfetch |]. split; [exact Hnone |]. apply Hfee.
Defined.

(** The fee-only run of the specification: 1% of 1000000 is 10000, above the
    cap of 5000. Without a cap in the way the fee is the ceiling. *)
Example fee_only_capped :
  getTransferAmountFee 1000000 (Some exampleFeeConfig) exampleEpochInfo false
  = Some (GetTransferAmountFee.mk 1000000 (Some 5000) (Some 345560%float)).
Proof. reflexivity. Qed.

Example fee_only_ceiling :
  getTransferAmountFee 12345 (Some exampleFeeConfig) exampleEpochInfo false
  = Some (GetTransferAmountFee.mk 12345 (Some 124) (Some 345560%float)).
Proof. reflexivity. Qed.

Example gross_up_below_cap :
  getTransferAmountFee 12345 (Some exampleFeeConfig) exampleEpochInfo true
  = Some (GetTransferAmountFee.mk 12470 (Some 125) (Some 345560%float)).
Proof. reflexivity. Qed.

(** With [basisPoints = 0] both modes leave the amount alone and charge
    nothing. *)
Example zero_basis_points :
  let feeConfig :=
    TransferFeeConfig.mk null null 0 (TransferFee.mk 400 5000 0) (TransferFee.mk 502 7000 0) in
  getTransferAmountFee 12345 (Some feeConfig) laterEpochInfo false
  = Some (GetTransferAmountFee.mk 12345 (Some 0) None)
  /\ getTransferAmountFee 12345 (Some feeConfig) laterEpochInfo true
     = Some (GetTransferAmountFee.mk 12345 (Some 0) None).
Proof. split; reflexivity. Qed.

(** The expiration time is a double: one slot of 400 ms is the double nearest
    to 0.4. *)
Example expirationTime_fraction :
  expirationTime exampleFeeConfig (EpochInfo.mk 500 432000 216863999)
  = Some 0x1.999999999999ap-2%float.
Proof. reflexivity. Qed.

(** [Number] rounds a bigint that no double holds, here [2^53 + 1]. *)
Example Number_rounds :
  Number 502 = 502%float /\ Number (2 ^ 53 + 1) = 9007199254740992%float.
Proof. split; reflexivity. Qed.

(** [Math.min] on the zeros and on NaN. *)
Example Math_min_edge :
  Math_min 0 (-0) = (-0)%float /\ Math_min (-0) 0 = (-0)%float
  /\ Math_min nan 3 = nan /\ Math_min 3 infinity = 3%float.
Proof. repeat split; reflexivity. Qed.

(** A missing account makes [unpackMint], and with it the fetch, throw; no
    mint at all gives the empty object. *)
Example fetch_missing_account :
  @fetchMultipleMintInfos emptyLedger tt exampleMints = None
  /\ @fetchMultipleMintInfos emptyLedger tt [] = Some ∅.
Proof. split; reflexivity. Qed.

(** * Further properties of the fee engine *)

Lemma ceilDiv_mono (a1 a2 b : Z) :
  0 < b -> a1 <= a2 -> ceilDiv a1 b <= ceilDiv a2 b.
Proof.
  intros Hb Ha.
  pose proof (ceilDiv_bounds a1 b Hb). pose proof (ceilDiv_bounds a2 b Hb). nia.
Qed.

Lemma ceilDiv_mul (q b : Z) : 0 < b -> ceilDiv (q * b) b = q.
Proof. intros Hb. apply ceilDiv_unique; [assumption | lia]. Qed.

(** The gross-up branch below 100%, in closed form: the gross amount is the
    smaller of the candidate and [amount + maximumFee]. *)
Lemma feeOnTier_gross_up_min (amount : BN.t) (tier : TransferFee.t) (exp : option float) :
  TransferFee.transferFeeBasisPoints tier < 10000 ->
  feeOnTier amount tier exp true
  = Some (GetTransferAmountFee.mk
            (Z.min (ceilDiv (amount * 10000) (10000 - TransferFee.transferFeeBasisPoints tier))
               (amount + TransferFee.maximumFee tier))
            (Some (Z.min
                     (ceilDiv
                        (Z.min (ceilDiv (amount * 10000)
                                  (10000 - TransferFee.transferFeeBasisPoints tier))
                           (amount + TransferFee.maximumFee tier)
                         * TransferFee.transferFeeBasisPoints tier) 10000)
                     (TransferFee.maximumFee tier)))
            exp).
Proof.
  intros Hbp.
  assert (Hne : TransferFee.transferFeeBasisPoints tier <> 10000) by lia.
  assert (Hd : 0 < 10000 - TransferFee.transferFeeBasisPoints tier) by lia.
  rewrite (feeOnTier_gross_up amount tier exp _ Hne (BNDivCeil_pos _ _ Hd)).
  destruct (Z.gtb_spec
              (ceilDiv (amount * 10000) (10000 - TransferFee.transferFeeBasisPoints tier)
               - amount) (TransferFee.maximumFee tier)).
  - rewrite (Z.min_r _ (amount + TransferFee.maximumFee tier)) by lia. reflexivity.
  - rewrite (Z.min_l _ (amount + TransferFee.maximumFee tier)) by lia. reflexivity.
Qed.

(** What the gross-up branch returns on a tier of at most 100%: the fee is the
    difference between the gross amount and the target, within the cap. *)
Lemma feeOnTier_gross_up_exact (amount : BN.t) (tier : TransferFee.t) (exp : option float) :
  0 <= TransferFee.transferFeeBasisPoints tier <= 10000 ->
  exists TAmount fee : Z,
    feeOnTier amount tier exp true
    = Some (GetTransferAmountFee.mk TAmount (Some fee) exp)
    /\ TAmount - fee = amount
    /\ fee <= TransferFee.maximumFee tier
    /\ TAmount <= amount + TransferFee.maximumFee tier
    /\ (TransferFee.transferFeeBasisPoints tier < 10000 ->
        TAmount = Z.min (ceilDiv (amount * 10000)
                           (10000 - TransferFee.transferFeeBasisPoints tier))
                    (amount + TransferFee.maximumFee tier)).
Proof.
  intros [Hlo Hhi].
  set (bp := TransferFee.transferFeeBasisPoints tier) in *.
  set (maxFee := TransferFee.maximumFee tier).
  destruct (Z.eq_dec bp 10000) as [E|N].
  - exists (amount + maxFee), maxFee.
    split; [unfold feeOnTier; fold bp; rewrite E; reflexivity |].
    repeat split; lia.
  - assert (Hd : 0 < 10000 - bp) by lia.
    pose proof (ceilDiv_bounds (amount * 10000) _ Hd) as HB.
    eexists _, _. split; [apply feeOnTier_gross_up_min; fold bp; lia |].
    fold bp maxFee.
    set (T0 := ceilDiv (amount * 10000) (10000 - bp)) in *.
    destruct (Z_le_gt_dec T0 (amount + maxFee)) as [Hle|Hgt];
      [rewrite (Z.min_l T0) by lia | rewrite (Z.min_r T0) by lia].
    + (* the candidate is within the cap: its fee is [T0 - amount] *)
      pose proof (ceilDiv_bounds (T0 * bp) 10000 ltac:(lia)) as HC.
      set (c := ceilDiv (T0 * bp) 10000) in *.
      assert (Hc : c = T0 - amount) by nia.
      rewrite Hc, Z.min_l by lia. repeat split; lia.
    + (* the cap binds: the fee on [amount + maxFee] is above the cap *)
      pose proof (ceilDiv_bounds ((amount + maxFee) * bp) 10000 ltac:(lia)) as HC.
      set (c := ceilDiv ((amount + maxFee) * bp) 10000) in *.
      assert ((10000 - bp) * (amount + maxFee) <= (10000 - bp) * (T0 - 1))
        by (apply Z.mul_le_mono_nonneg_l; lia).
      assert (Hc : maxFee <= c) by nia.
      rewrite Z.min_r by lia. repeat split; lia.
Qed.

(** Below 100%, a gross amount under the one returned nets less than the
    target once its own fee is withheld. *)
Lemma gross_below_nets_less (amount bp maxFee T : Z) :
  bp < 10000 ->
  T < Z.min (ceilDiv (amount * 10000) (10000 - bp)) (amount + maxFee) ->
  T - Z.min (ceilDiv (T * bp) 10000) maxFee < amount.
Proof.
  intros Hbp HT.
  assert (Hd : 0 < 10000 - bp) by lia.
  pose proof (ceilDiv_bounds (amount * 10000) _ Hd) as HB.
  pose proof (ceilDiv_bounds (T * bp) 10000 ltac:(lia)) as HC.
  set (T0 := ceilDiv (amount * 10000) (10000 - bp)) in *.
  set (c := ceilDiv (T * bp) 10000) in *.
  assert ((10000 - bp) * T <= (10000 - bp) * (T0 - 1))
    by (apply Z.mul_le_mono_nonneg_l; lia).
  assert (T - amount < c) by nia.
  lia.
Qed.

(** X1. The gross-up is exact: on a tier with [basisPoints] in [[0, 10000]]
    the gross amount less the fee returned with it is the target amount, and
    that fee is within [maximumFee]. *)
Theorem getTransferAmountFee_gross_up_exact (amount : BN.t)
    (feeConfig : TransferFeeConfig.t) (epochInfo : EpochInfo.t) :
  0 <= basisPoints feeConfig epochInfo <= 10000 ->
  exists TAmount fee : Z,
    getTransferAmountFee amount (Some feeConfig) epochInfo true
    = Some (GetTransferAmountFee.mk TAmount (Some fee)
              (expirationTime feeConfig epochInfo))
    /\ TAmount - fee = amount
    /\ fee <= maximumFee feeConfig epochInfo.
Proof.
  intros Hbp. unfold getTransferAmountFee.
  destruct (feeOnTier_gross_up_exact amount (nowFeeConfig feeConfig epochInfo)
              (expirationTime feeConfig epochInfo) Hbp)
    as (TAmount & fee & Hres & Hnet & Hcap & _).
  exists TAmount, fee. auto.
Qed.

(** X2. The gross-up is minimal: on a tier with [basisPoints] below 10000, the
    fee-only mode applied to any gross amount under the one returned leaves
    less than the target amount. *)
Theorem getTransferAmountFee_gross_up_minimal (amount : BN.t)
    (feeConfig : TransferFeeConfig.t) (epochInfo : EpochInfo.t) :
  0 <= basisPoints feeConfig epochInfo < 10000 ->
  exists TAmount fee : Z,
    getTransferAmountFee amount (Some feeConfig) epochInfo true
    = Some (GetTransferAmountFee.mk TAmount (Some fee)
              (expirationTime feeConfig epochInfo))
    /\ forall T : Z,
         T < TAmount ->
         exists f : Z,
           getTransferAmountFee T (Some feeConfig) epochInfo false
           = Some (GetTransferAmountFee.mk T (Some f)
                     (expirationTime feeConfig epochInfo))
           /\ T - f < amount.
Proof.
  intros [Hlo Hhi]. unfold getTransferAmountFee, basisPoints in *.
  eexists _, _. split; [apply feeOnTier_gross_up_min; exact Hhi |].
  intros T HT. eexists. split; [apply feeOnTier_fee_only |].
  apply gross_below_nets_less; assumption.
Qed.

(** X3. In fee-only mode, on a well-formed tier ([basisPoints] in
    [[0, 10000]], [maximumFee] non-negative), the fee on a non-negative amount
    lies between zero and the amount: withholding it never leaves a negative
    net. *)
Theorem getTransferAmountFee_fee_only_bounds (amount : BN.t)
    (feeConfig : TransferFeeConfig.t) (epochInfo : EpochInfo.t) :
  0 <= amount ->
  0 <= basisPoints feeConfig epochInfo <= 10000 ->
  0 <= maximumFee feeConfig epochInfo ->
  exists fee : Z,
    getTransferAmountFee amount (Some feeConfig) epochInfo false
    = Some (GetTransferAmountFee.mk amount (Some fee)
              (expirationTime feeConfig epochInfo))
    /\ 0 <= fee <= amount.
Proof.
  intros Hamount Hbp Hmax. unfold getTransferAmountFee, basisPoints, maximumFee in *.
  eexists. split; [apply feeOnTier_fee_only |].
  set (bp := TransferFee.transferFeeBasisPoints (nowFeeConfig feeConfig epochInfo)) in *.
  pose proof (ceilDiv_bounds (amount * bp) 10000 ltac:(lia)) as HC.
  set (c := ceilDiv (amount * bp) 10000) in *.
  assert (0 <= c <= amount) by nia.
  lia.
Qed.

(** X4. In fee-only mode the fee grows with the amount, when [basisPoints] is
    non-negative. *)
Theorem getTransferAmountFee_fee_only_mono (amount1 amount2 : BN.t)
    (feeConfig : TransferFeeConfig.t) (epochInfo : EpochInfo.t) :
  0 <= basisPoints feeConfig epochInfo ->
  amount1 <= amount2 ->
  exists fee1 fee2 : Z,
    getTransferAmountFee amount1 (Some feeConfig) epochInfo false
    = Some (GetTransferAmountFee.mk amount1 (Some fee1)
              (expirationTime feeConfig epochInfo))
    /\ getTransferAmountFee amount2 (Some feeConfig) epochInfo false
       = Some (GetTransferAmountFee.mk amount2 (Some fee2)
                 (expirationTime feeConfig epochInfo))
    /\ fee1 <= fee2.
Proof.
  intros Hbp Hle. unfold getTransferAmountFee, basisPoints in *.
  eexists _, _. split; [apply feeOnTier_fee_only |].
  split; [apply feeOnTier_fee_only |].
  apply Z.min_le_compat_r, ceilDiv_mono; [lia |].
  apply Z.mul_le_mono_nonneg_r; assumption.
Qed.

(** X5. In gross-up mode, on a well-formed tier and a non-negative target, the
    gross amount is at least the target and at most the target plus
    [maximumFee], and the fee is non-negative. *)
Theorem getTransferAmountFee_gross_up_bounds (amount : BN.t)
    (feeConfig : TransferFeeConfig.t) (epochInfo : EpochInfo.t) :
  0 <= amount ->
  0 <= basisPoints feeConfig epochInfo <= 10000 ->
  0 <= maximumFee feeConfig epochInfo ->
  exists TAmount fee : Z,
    getTransferAmountFee amount (Some feeConfig) epochInfo true
    = Some (GetTransferAmountFee.mk TAmount (Some fee)
              (expirationTime feeConfig epochInfo))
    /\ amount <= TAmount <= amount + maximumFee feeConfig epochInfo
    /\ 0 <= fee.
Proof.
  intros Hamount Hbp Hmax. unfold getTransferAmountFee, basisPoints, maximumFee in *.
  destruct (feeOnTier_gross_up_exact amount (nowFeeConfig feeConfig epochInfo)
              (expirationTime feeConfig epochInfo) Hbp)
    as (TAmount & fee & Hres & Hnet & Hcap & Hup & Hmin).
  exists TAmount, fee. split; [exact Hres |].
  set (bp := TransferFee.transferFeeBasisPoints (nowFeeConfig feeConfig epochInfo)) in *.
  destruct (Z.eq_dec bp 10000) as [E|N].
  - unfold feeOnTier in Hres. fold bp in Hres. rewrite E in Hres. cbn in Hres.
    injection Hres as <- <-. unfold BN.add, BN.of_bigint_string. lia.
  - specialize (Hmin ltac:(lia)).
    pose proof (ceilDiv_bounds (amount * 10000) (10000 - bp) ltac:(lia)) as HB.
    set (T0 := ceilDiv (amount * 10000) (10000 - bp)) in *.
    assert (amount <= T0) by nia.
    lia.
Qed.

(** X6. In gross-up mode the gross amount grows with the target, on a tier
    with [basisPoints] at most 10000. *)
Theorem getTransferAmountFee_gross_up_mono (amount1 amount2 : BN.t)
    (feeConfig : TransferFeeConfig.t) (epochInfo : EpochInfo.t) :
  0 <= basisPoints feeConfig epochInfo <= 10000 ->
  amount1 <= amount2 ->
  exists r1 r2 : GetTransferAmountFee.t,
    getTransferAmountFee amount1 (Some feeConfig) epochInfo true = Some r1
    /\ getTransferAmountFee amount2 (Some feeConfig) epochInfo true = Some r2
    /\ GetTransferAmountFee.amount r1 <= GetTransferAmountFee.amount r2.
Proof.
  intros Hbp Hle. unfold getTransferAmountFee, basisPoints in *.
  set (tier := nowFeeConfig feeConfig epochInfo) in *.
  set (exp := expirationTime feeConfig epochInfo).
  destruct (Z.eq_dec (TransferFee.transferFeeBasisPoints tier) 10000) as [E|N].
  - eexists _, _. unfold feeOnTier. rewrite E. cbn.
    split; [reflexivity |]. split; [reflexivity |]. cbn. unfold BN.add. lia.
  - eexists _, _. split; [apply feeOnTier_gross_up_min; lia |].
    split; [apply feeOnTier_gross_up_min; lia |]. cbn.
    apply Z.min_le_compat; [apply ceilDiv_mono; lia | lia].
Qed.

(** X7. A tier of zero basis points with a non-negative [maximumFee] charges
    nothing: both modes return the amount with a fee of zero. *)
Theorem getTransferAmountFee_zero_basis_points (amount : BN.t)
    (feeConfig : TransferFeeConfig.t) (epochInfo : EpochInfo.t) (addFee : bool) :
  basisPoints feeConfig epochInfo = 0 ->
  0 <= maximumFee feeConfig epochInfo ->
  getTransferAmountFee amount (Some feeConfig) epochInfo addFee
  = Some (GetTransferAmountFee.mk amount (Some 0) (expirationTime feeConfig epochInfo)).
Proof.
  intros Hbp Hmax. unfold getTransferAmountFee, basisPoints, maximumFee in *.
  destruct addFee.
  - rewrite feeOnTier_gross_up_min by lia. rewrite Hbp.
    replace (10000 - 0) with 10000 by lia.
    rewrite (ceilDiv_mul amount 10000) by lia.
    rewrite (Z.min_l amount) by lia.
    replace (amount * 0) with (0 * 10000) by lia.
    rewrite (ceilDiv_mul 0 10000) by lia. rewrite Z.min_l by lia. reflexivity.
  - rewrite feeOnTier_fee_only, Hbp.
    replace (amount * 0) with (0 * 10000) by lia.
    rewrite (ceilDiv_mul 0 10000) by lia. rewrite Z.min_l by lia. reflexivity.
Qed.

(** * Further properties of [BNDivCeil] *)

(** X8. [BNDivCeil] throws exactly on a zero divisor, and on a nonzero divisor
    its result is the ceiling of the quotient exactly when the divisor is
    positive or divides the dividend. On a negative divisor that does not
    divide the dividend the result is off by exactly one: one above the
    ceiling for a positive dividend, one below it for a negative one. *)
Theorem BNDivCeil_domain (a b : Z) :
  (BNDivCeil a b = None <-> b = 0)
  /\ (b <> 0 ->
      (BNDivCeil a b = Some (ceilDiv a b) <-> 0 < b \/ a mod b = 0))
  /\ (b < 0 -> a mod b <> 0 ->
      BNDivCeil a b
      = Some (if 0 <? a then ceilDiv a b + 1 else ceilDiv a b - 1)).
Proof.
  split; [| split].
  - unfold BNDivCeil, BN.divmod. destruct (Z.eqb_spec b 0); split; congruence.
  - intros Hb. split.
    + intros Hceil.
      destruct (Z_lt_le_dec 0 b) as [|Hneg]; [left; assumption | right].
      rewrite (BNDivCeil_nonzero a b Hb) in Hceil. injection Hceil as Hceil.
      unfold ceilDiv in Hceil.
      pose proof (Z.quot_rem' a b) as Hqr.
      pose proof (Z.div_mod a b Hb) as Hdm.
      pose proof (Z.mod_neg_bound a b ltac:(lia)) as Hm.
      destruct (Z.eqb_spec (a mod b) 0) as [|Hnz]; [assumption | exfalso].
      destruct (Z.gtb_spec (Z.rem a b) 0) as [Hr|Hr].
      * assert (0 <= a)
          by (destruct (Z_lt_le_dec a 0); [| lia];
              pose proof (Z.rem_nonpos a b Hb ltac:(lia)); lia).
        pose proof (Z.rem_bound_pos a (- b) ltac:(lia) ltac:(lia)) as Hrb.
        rewrite Z.rem_opp_r in Hrb by lia. nia.
      * destruct (Z_lt_le_dec a 0) as [Ha|Ha].
        -- pose proof (Z.rem_bound_pos (- a) (- b) ltac:(lia) ltac:(lia)) as Hrb.
           rewrite Z.rem_opp_opp in Hrb by lia. nia.
        -- pose proof (Z.rem_bound_pos a (- b) Ha ltac:(lia)) as Hrb.
           rewrite Z.rem_opp_r in Hrb by lia.
           assert (Z.rem a b = 0) by lia. nia.
    + intros [Hpos|Hdiv]; [apply BNDivCeil_pos, Hpos |].
      rewrite (BNDivCeil_nonzero a b Hb). f_equal.
      unfold ceilDiv. rewrite Hdiv. cbn.
      apply Z.mod_divide in Hdiv; [| assumption]. destruct Hdiv as [k ->].
      rewrite Z.rem_mul, Z.quot_mul, Z.div_mul by assumption. reflexivity.
  - intros Hb Hnz.
    rewrite (BNDivCeil_nonzero a b) by lia. f_equal.
    unfold ceilDiv. destruct (Z.eqb_spec (a mod b) 0) as [|_]; [contradiction |].
    pose proof (Z.quot_rem' a b) as Hqr.
    pose proof (Z.div_mod a b ltac:(lia)) as Hdm.
    pose proof (Z.mod_neg_bound a b Hb) as Hm.
    destruct (Z.ltb_spec 0 a) as [Ha|Ha].
    + pose proof (Z.rem_bound_pos a (- b) ltac:(lia) ltac:(lia)) as Hrb.
      rewrite Z.rem_opp_r in Hrb by lia.
      destruct (Z.gtb_spec (Z.rem a b) 0) as [Hr|Hr].
      * assert (b * (Z.quot a b - a / b) = a mod b - Z.rem a b) as Hk by lia.
        remember (Z.quot a b - a / b) as k.
        assert (0 < k) by (destruct (Z_lt_le_dec 0 k); [assumption | nia]).
        assert (k < 2) by (destruct (Z_lt_le_dec k 2); [assumption | nia]).
        lia.
      * assert (b * (Z.quot a b - a / b) = a mod b) as Hk by lia.
        remember (Z.quot a b - a / b) as k.
        exfalso. destruct (Z_lt_le_dec 0 k); nia.
    + assert (a <> 0) by (intros ->; rewrite Z.mod_0_l in Hnz by lia; lia).
      pose proof (Z.rem_bound_pos (- a) (- b) ltac:(lia) ltac:(lia)) as Hrb.
      rewrite Z.rem_opp_opp in Hrb by lia.
      destruct (Z.gtb_spec (Z.rem a b) 0) as [Hr|Hr]; [lia |].
      assert (b * (Z.quot a b - a / b) = a mod b - Z.rem a b) as Hk by lia.
      remember (Z.quot a b - a / b) as k.
      assert (-1 < k) by (destruct (Z_lt_le_dec (-1) k); [assumption | nia]).
      assert (k < 1) by (destruct (Z_lt_le_dec k 1); [assumption | nia]).
      lia.
Qed.

(** * Further properties of the mint-fetching path *)

Section MintFetchingMore.

Context `{Ledger}.

Lemma fetchLoop_lookup (mintInfos : list (FetchedAccount PublicKey)) :
  forall (mintK res : gmap string MintInfo.t) (key : string),
    fetchLoop mintInfos mintK = Some res ->
    res !! key
    = if decide (key ∈ map (fun i => toString (pubkey i)) mintInfos)
      then Some (MintInfo.mk (Mint.mk null 0 0 true null) None)
      else mintK !! key.
Proof.
  induction mintInfos as [| i rest IH]; intros mintK res key Hloop.
  - injection Hloop as <-. cbn. destruct (decide (key ∈ [])) as [Hin|]; [| reflexivity].
    inversion Hin.
  - cbn [fetchLoop] in Hloop. destruct (accountInfo i) as [| info]; [discriminate |].
    cbn in Hloop. rewrite (IH _ _ key Hloop). cbn [map].
    destruct (decide (key ∈ map (fun i => toString (pubkey i)) rest)) as [Hin|Hnin].
    + rewrite decide_True by (right; exact Hin). reflexivity.
    + rewrite lookup_insert.
      destruct (decide (toString (pubkey i) = key)) as [<-|Hne].
      * rewrite decide_True by left. reflexivity.
      * rewrite decide_False; [reflexivity |].
        intros Hin. apply elem_of_cons in Hin. destruct Hin; congruence.
Qed.

Lemma fetchLoop_throws (mintInfos : list (FetchedAccount PublicKey)) :
  forall mintK : gmap string MintInfo.t,
    fetchLoop mintInfos mintK = None
    <-> Exists (fun i => accountInfo i = null) mintInfos.
Proof.
  induction mintInfos as [| i rest IH]; intros mintK.
  - cbn. split; [discriminate | intros Hex; inversion Hex].
  - cbn [fetchLoop]. rewrite Exists_cons.
    destruct (accountInfo i) as [| info]; cbn.
    + split; [left; reflexivity | reflexivity].
    + rewrite IH. split; [right; assumption | intros [|]; [discriminate | assumption]].
Qed.

(** X9. [fetchMultipleMintInfos] throws exactly when it is given at least one
    mint and either the fetch rejects or one of the fetched accounts is
    missing ([null]): a single unknown mint fails the whole call. *)
Theorem fetchMultipleMintInfos_throws (connection : Connection) (mints : list PublicKey) :
  fetchMultipleMintInfos connection mints = None
  <-> mints <> []
      /\ (getMultipleAccountsInfoWithCustomFlags connection mints = None
          \/ exists mintInfos : list (FetchedAccount PublicKey),
               getMultipleAccountsInfoWithCustomFlags connection mints = Some mintInfos
               /\ Exists (fun i => accountInfo i = null) mintInfos).
Proof.
  unfold fetchMultipleMintInfos. destruct mints as [| m mints]; cbn.
  - split; [discriminate | intros [Hne _]; contradiction].
  - destruct (getMultipleAccountsInfoWithCustomFlags connection (m :: mints))
      as [mintInfos|]; cbn.
    + rewrite fetchLoop_throws. split.
      * intros Hex. split; [discriminate |]. right. exists mintInfos. auto.
      * intros [_ [Hnone | (infos & Hsome & Hex)]]; [discriminate |].
        injection Hsome as <-. exact Hex.
    + split; [| reflexivity]. intros _. split; [discriminate | left; reflexivity].
Qed.

(** X10. What [fetchMultipleMintInfos] returns: nothing for no mint; otherwise
    an object whose keys are the strings of the fetched keys and whose every
    value is the same record (supply 0, decimals 0, initialized, no
    authorities, no fee configuration), whatever the account's data and
    owner. *)
Theorem fetchMultipleMintInfos_returns (connection : Connection)
    (mints : list PublicKey) (mintK : gmap string MintInfo.t) :
  fetchMultipleMintInfos connection mints = Some mintK ->
  (mints = [] /\ mintK = ∅)
  \/ exists mintInfos : list (FetchedAccount PublicKey),
       mints <> []
       /\ getMultipleAccountsInfoWithCustomFlags connection mints = Some mintInfos
       /\ forall key : string,
            mintK !! key
            = if decide (key ∈ map (fun i => toString (pubkey i)) mintInfos)
              then Some (MintInfo.mk (Mint.mk null 0 0 true null) None)
              else None.
Proof.
  unfold fetchMultipleMintInfos. destruct mints as [| m mints]; cbn.
  - intros Hres. injection Hres as <-. left. auto.
  - destruct (getMultipleAccountsInfoWithCustomFlags connection (m :: mints))
      as [mintInfos|]; cbn; [| discriminate].
    intros Hloop. right. exists mintInfos.
    split; [discriminate |]. split; [reflexivity |].
    intros key. rewrite (fetchLoop_lookup mintInfos ∅ mintK key Hloop).
    rewrite lookup_empty. reflexivity.
Qed.

End MintFetchingMore.

(** * Wrapped SOL *)

Lemma fold_add_from (l : list BN.t) (a : BN.t) :
  fold_left (fun a b => BN.add a b) l a = a + fold_left (fun a b => BN.add a b) l 0.
Proof.
  revert a. induction l as [| x l IH]; intros a; cbn; [lia |].
  rewrite (IH (BN.add a x)), (IH (BN.add 0 x)). unfold BN.add. lia.
Qed.

Section WrappedSol.

Context `{Common}.

Lemma getWSOLAmount_cons (i : TokenAccount.t) (l : list TokenAccount.t) :
  getWSOLAmount (i :: l)
  = (if isWSOL i then TokenAccount.amount i else 0) + getWSOLAmount l.
Proof.
  unfold getWSOLAmount. cbn [List.filter]. destruct (isWSOL i); cbn; [| lia].
  rewrite fold_add_from. unfold BN.add, BN.of_number. lia.
Qed.

Lemma filter_isWSOL_idem (l : list TokenAccount.t) :
  List.filter isWSOL (List.filter isWSOL l) = List.filter isWSOL l.
Proof.
  induction l as [| i l IH]; [reflexivity |]. cbn.
  destruct (isWSOL i) eqn:E; cbn; [rewrite E, IH |]; auto.
Qed.

(** X11. [getWSOLAmount] is additive over a concatenation of account lists and
    does not depend on the order of the accounts. *)
Theorem getWSOLAmount_additive :
  (forall l1 l2 : list TokenAccount.t,
     getWSOLAmount (l1 ++ l2) = getWSOLAmount l1 + getWSOLAmount l2)
  /\ (forall l1 l2 : list TokenAccount.t,
        Permutation l1 l2 -> getWSOLAmount l1 = getWSOLAmount l2).
Proof.
  split.
  - intros l1 l2. induction l1 as [| i l1 IH]; [reflexivity |].
    cbn [app]. rewrite !getWSOLAmount_cons, IH. lia.
  - intros l1 l2 Hperm. induction Hperm as [| i l1 l2 _ IH | i j l | l1 l2 l3 _ IH1 _ IH2].
    + reflexivity.
    + rewrite !getWSOLAmount_cons, IH. reflexivity.
    + rewrite !getWSOLAmount_cons. lia.
    + congruence.
Qed.

(** X12. What [unwarpSol] hands to [splitTxAndSigners]: one inner transaction
    for each wrapped-SOL account, in the order of the accounts, of type
    [closeAccount], without signers or lookup tables, whose one instruction
    closes that account under [TOKEN_PROGRAM_ID] with the wallet as owner and
    the payer as payer. No account of another mint is closed: every inner
    transaction closes an account of [tokenAccounts] whose mint is
    [WSOL_MINT], and dropping the other accounts changes neither the call nor
    the amount of [getWSOLAmount], which is the sum of the amounts of the
    accounts closed. *)
Theorem unwarpSol_only_wrapped_sol (connection : Connection) (wallet payer : PublicKey)
    (tokenAccounts : list TokenAccount.t) (makeTxVersion : TxVersion) :
  exists innerTransaction : list InnerTransaction.t,
    unwarpSol connection wallet payer tokenAccounts makeTxVersion
    = splitTxAndSigners connection makeTxVersion payer innerTransaction
    /\ Forall2
         (fun i tx =>
            tx = InnerTransaction.mk [closeAccount]
                   [makeCloseAccountInstruction TOKEN_PROGRAM_ID (TokenAccount.pubkey i)
                      wallet payer] [] None)
         (List.filter isWSOL tokenAccounts) innerTransaction
    /\ (forall tx : InnerTransaction.t,
          tx ∈ innerTransaction ->
          exists i : TokenAccount.t,
            i ∈ tokenAccounts
            /\ equals (TokenAccount.mint i) WSOL_MINT = true
            /\ InnerTransaction.instructions tx
               = [makeCloseAccountInstruction TOKEN_PROGRAM_ID (TokenAccount.pubkey i)
                    wallet payer])
    /\ length innerTransaction = length (List.filter isWSOL tokenAccounts)
    /\ unwarpSol connection wallet payer (List.filter isWSOL tokenAccounts) makeTxVersion
       = unwarpSol connection wallet payer tokenAccounts makeTxVersion
    /\ getWSOLAmount (List.filter isWSOL tokenAccounts) = getWSOLAmount tokenAccounts
    /\ fold_left (fun a b => BN.add a b)
         (map fst (instructionsInfo wallet payer tokenAccounts)) (BN.of_number 0)
       = getWSOLAmount tokenAccounts.
Proof.
  eexists. split; [reflexivity |].
  unfold unwarpSol, instructionsInfo, getWSOLAmount.
  rewrite filter_isWSOL_idem, !List.map_map. cbn [fst snd].
  split; [| split; [| split; [| split; [| split]]]]; try reflexivity.
  - induction (List.filter isWSOL tokenAccounts) as [| i l IH]; cbn; constructor;
      [reflexivity | exact IH].
  - intros tx Htx. apply list_elem_of_In, in_map_iff in Htx.
    destruct Htx as (i & <- & Hi). apply filter_In in Hi. destruct Hi as [Hi Hw].
    exists i. split; [apply list_elem_of_In, Hi |]. split; [exact Hw | reflexivity].
  - apply List.length_map.
Qed.

End WrappedSol.

(** * Objects and sets *)

Lemma existsb_eqb_elem (x : string) (l : list string) :
  existsb (String.eqb x) l = true <-> x ∈ l.
Proof.
  rewrite existsb_exists. split.
  - intros (y & Hin & Heq). apply String.eqb_eq in Heq. subst y.
    apply list_elem_of_In, Hin.
  - intros Hin. exists x. split; [apply list_elem_of_In, Hin | apply String.eqb_refl].
Qed.

Lemma JSObject_get_set {V : Type} (k k' : string) (v : V) (o : JSObject.t V) :
  JSObject.get k' (JSObject.set k v o)
  = if String.eqb k' k then Some v else JSObject.get k' o.
Proof.
  induction o as [| [k0 v0] o IH]; cbn.
  - reflexivity.
  - destruct (String.eqb_spec k k0) as [->|Hne]; cbn.
    + destruct (String.eqb_spec k' k0); reflexivity.
    + rewrite IH. destruct (String.eqb_spec k' k0) as [->|]; [| reflexivity].
      destruct (String.eqb_spec k0 k); [congruence | reflexivity].
Qed.

Lemma JSObject_keys_set {V : Type} (k : string) (v : V) (o : JSObject.t V) :
  JSObject.keys (JSObject.set k v o)
  = if existsb (String.eqb k) (JSObject.keys o)
    then JSObject.keys o else JSObject.keys o ++ [k].
Proof.
  unfold JSObject.keys.
  induction o as [| [k0 v0] o IH]; cbn; [reflexivity |].
  destruct (String.eqb k k0); cbn; [reflexivity |].
  rewrite IH. destruct (existsb (String.eqb k) (map fst o)); reflexivity.
Qed.

Lemma JSObject_get_None {V : Type} (k : string) (o : JSObject.t V) :
  JSObject.get k o = None <-> existsb (String.eqb k) (JSObject.keys o) = false.
Proof.
  unfold JSObject.keys.
  induction o as [| [k0 v0] o IH]; cbn; [tauto |].
  destruct (String.eqb k k0); cbn; [split; discriminate | exact IH].
Qed.

Lemma JSObject_spread_keys {V : Type} (b : JSObject.t V) :
  forall a : JSObject.t V,
    exists added : list string,
      JSObject.keys (JSObject.spread a b) = JSObject.keys a ++ added.
Proof.
  unfold JSObject.spread.
  induction b as [| [k v] b IH]; intros a; cbn [fold_left fst snd].
  - exists []. rewrite app_nil_r. reflexivity.
  - destruct (IH (JSObject.set k v a)) as [added Hadded]. rewrite Hadded.
    rewrite JSObject_keys_set.
    destruct (existsb (String.eqb k) (JSObject.keys a)).
    + exists added. reflexivity.
    + exists (k :: added). rewrite <- app_assoc. reflexivity.
Qed.

Lemma JSObject_spread_get {V : Type} (k : string) (b : JSObject.t V) :
  forall a : JSObject.t V,
    JSObject.get k b = None ->
    JSObject.get k (JSObject.spread a b) = JSObject.get k a.
Proof.
  unfold JSObject.spread.
  induction b as [| [k0 v0] b IH]; intros a Hnone;
    cbn [fold_left fst snd JSObject.get] in *; [reflexivity |].
  destruct (String.eqb k k0) eqn:E; [discriminate |].
  rewrite (IH _ Hnone), JSObject_get_set, E. reflexivity.
Qed.

(** Setting, for a key, the value that a function gives it, in an object built
    that way from its keys. *)
Lemma JSObject_set_tabulate {V : Type} (f : string -> V) (k : string) (ks : list string) :
  JSObject.set k (f k) (map (fun k => (k, f k)) ks)
  = map (fun k => (k, f k))
      (if existsb (String.eqb k) ks then ks else ks ++ [k]).
Proof.
  induction ks as [| k0 ks IH]; cbn; [reflexivity |].
  destruct (String.eqb_spec k k0) as [->|Hne]; cbn; [reflexivity |].
  rewrite IH. destruct (existsb (String.eqb k) ks); reflexivity.
Qed.

Lemma uniqueFrom_spec (l : list string) :
  forall seen : list string,
    NoDup seen ->
    NoDup (fold_left
             (fun seen x => if existsb (String.eqb x) seen then seen else seen ++ [x])
             l seen)
    /\ forall x : string,
         x ∈ fold_left
               (fun seen x => if existsb (String.eqb x) seen then seen else seen ++ [x])
               l seen
         <-> x ∈ seen \/ x ∈ l.
Proof.
  induction l as [| y l IH]; intros seen Hnd; cbn.
  - split; [exact Hnd |]. intros x. split; [auto | intros [|Hin]; [assumption | inversion Hin]].
  - destruct (existsb (String.eqb y) seen) eqn:E.
    + destruct (IH seen Hnd) as [Hnd' Hin']. split; [exact Hnd' |].
      intros x. rewrite Hin', elem_of_cons. apply existsb_eqb_elem in E.
      split; [intros [|]; auto | intros [| [->|]]; auto].
    + assert (Hnd1 : NoDup (seen ++ [y])).
      { apply NoDup_app. split; [exact Hnd |]. split; [| apply NoDup_singleton].
        intros x Hx Hy. apply list_elem_of_singleton in Hy. subst x.
        apply existsb_eqb_elem in Hx. congruence. }
      destruct (IH _ Hnd1) as [Hnd' Hin']. split; [exact Hnd' |].
      intros x. rewrite Hin', elem_of_app, list_elem_of_singleton, elem_of_cons. tauto.
Qed.

Lemma uniqueStrings_spec (l : list string) :
  NoDup (uniqueStrings l) /\ forall x : string, x ∈ uniqueStrings l <-> x ∈ l.
Proof.
  destruct (uniqueFrom_spec l [] (NoDup_nil_2)) as [Hnd Hin].
  split; [exact Hnd |]. intros x. unfold uniqueStrings. rewrite Hin.
  split; [intros [Hnil|]; [inversion Hnil | assumption] | auto].
Qed.

Lemma filter_comm {A : Type} (p q : A -> bool) (l : list A) :
  List.filter p (List.filter q l) = List.filter q (List.filter p l).
Proof.
  induction l as [| x l IH]; [reflexivity |]. cbn.
  destruct (p x) eqn:Ep, (q x) eqn:Eq; cbn; rewrite ?Ep, ?Eq, IH; reflexivity.
Qed.

Lemma filter_andb {A : Type} (p q : A -> bool) (l : list A) :
  List.filter p (List.filter q l) = List.filter (fun x => q x && p x) l.
Proof.
  induction l as [| x l IH]; [reflexivity |]. cbn.
  destruct (q x); cbn; [destruct (p x) |]; rewrite IH; reflexivity.
Qed.

Lemma filter_drops_rejected (p : string -> bool) (x : string) (l : list string) :
  p x = false ->
  List.filter p (List.filter (fun y => negb (String.eqb y x)) l) = List.filter p l.
Proof.
  intros Hx. induction l as [| y l IH]; [reflexivity |]. cbn.
  destruct (String.eqb_spec y x) as [->|Hne]; cbn; rewrite ?Hx, IH; reflexivity.
Qed.

Lemma firstOccurrences_filter (p : string -> bool) (l : list string) :
  firstOccurrences (List.filter p l) = List.filter p (firstOccurrences l).
Proof.
  induction l as [| x l IH]; [reflexivity |]. cbn.
  destruct (p x) eqn:Ep; cbn.
  - rewrite IH. f_equal. apply filter_comm.
  - rewrite IH. symmetry. apply filter_drops_rejected, Ep.
Qed.

Lemma uniqueFrom_firstOccurrences (l : list string) :
  forall seen : list string,
    fold_left (fun seen x => if existsb (String.eqb x) seen then seen else seen ++ [x])
      l seen
    = seen
      ++ firstOccurrences
           (List.filter (fun x => negb (existsb (String.eqb x) seen)) l).
Proof.
  induction l as [| y l IH]; intros seen; cbn; [rewrite app_nil_r; reflexivity |].
  destruct (existsb (String.eqb y) seen) eqn:E; cbn; [apply IH |].
  rewrite IH, <- app_assoc. cbn. do 2 f_equal.
  rewrite <- firstOccurrences_filter, filter_andb. f_equal.
  apply List.filter_ext. intros x. rewrite existsb_app. cbn.
  rewrite orb_false_r, negb_orb. reflexivity.
Qed.

Lemma uniqueStrings_firstOccurrences (l : list string) :
  uniqueStrings l = firstOccurrences l.
Proof.
  unfold uniqueStrings. rewrite uniqueFrom_firstOccurrences. cbn. f_equal.
  induction l as [| x l IH]; cbn; congruence.
Qed.

(** * Transaction building *)

Section TransactionBuilding.

Context `{Common}.

Lemma buildSimpleLoop_omap (makeTxVersion : TxVersion) (payer : PublicKey)
    (recentBlockhash : string) (addLookupTableInfo : option CacheLTA)
    (innerTransactions : list InnerSimpleTransaction.t) :
  forall txList : list (VersionedTransaction + Transaction),
    buildSimpleLoop makeTxVersion payer recentBlockhash addLookupTableInfo
      innerTransactions txList
    = txList
      ++ omap
           (fun itemIx =>
              _makeTransaction makeTxVersion (InnerSimpleTransaction.instructions itemIx)
                payer recentBlockhash (InnerSimpleTransaction.signers itemIx)
                (map Some
                   (JSObject.values
                      (JSObject.spread (default [] addLookupTableInfo)
                         (default [] (InnerSimpleTransaction.lookupTableAddress itemIx))))))
           innerTransactions.
Proof.
  induction innerTransactions as [| itemIx rest IH]; intros txList; cbn.
  - rewrite app_nil_r. reflexivity.
  - destruct (_makeTransaction _ _ _ _ _ _) as [tx|]; rewrite IH;
      [rewrite <- app_assoc |]; reflexivity.
Qed.

Lemma omap_length_le {A B : Type} (f : A -> option B) (l : list A) :
  (length (omap f l) <= length l)%nat.
Proof. induction l as [| x l IH]; cbn; [lia |]. destruct (f x); cbn; lia. Qed.

(** X13. [buildSimpleTransaction] throws only on a version that is neither
    [V0] nor [LEGACY] or when no blockhash is given and fetching one fails;
    otherwise it returns, in order, the transactions that could be built: an
    inner transaction whose construction throws is left out, so the result
    can be shorter than the input. *)
Theorem buildSimpleTransaction_skips_failures (connection : Connection)
    (makeTxVersion : TxVersion) (payer : PublicKey)
    (innerTransactions : list InnerSimpleTransaction.t)
    (recentBlockhash : option string) (addLookupTableInfo : option CacheLTA) :
  (buildSimpleTransaction connection makeTxVersion payer innerTransactions
     recentBlockhash addLookupTableInfo = None
   <-> validTxVersion makeTxVersion = false
       \/ blockhashOr connection recentBlockhash = None)
  /\ forall txList : list (VersionedTransaction + Transaction),
       buildSimpleTransaction connection makeTxVersion payer innerTransactions
         recentBlockhash addLookupTableInfo = Some txList ->
       exists blockhash : string,
         blockhashOr connection recentBlockhash = Some blockhash
         /\ txList
            = omap
                (fun itemIx =>
                   _makeTransaction makeTxVersion
                     (InnerSimpleTransaction.instructions itemIx) payer blockhash
                     (InnerSimpleTransaction.signers itemIx)
                     (map Some
                        (JSObject.values
                           (JSObject.spread (default [] addLookupTableInfo)
                              (default []
                                 (InnerSimpleTransaction.lookupTableAddress itemIx))))))
                innerTransactions
         /\ (length txList <= length innerTransactions)%nat.
Proof.
  unfold buildSimpleTransaction.
  destruct (validTxVersion makeTxVersion); cbn.
  - destruct (blockhashOr connection recentBlockhash) as [blockhash|]; cbn.
    + split; [split; [discriminate | intros [|]; discriminate] |].
      intros txList Hres. injection Hres as <-. exists blockhash.
      rewrite buildSimpleLoop_omap. cbn [app].
      split; [reflexivity |]. split; [reflexivity | apply omap_length_le].
    + split; [split; auto | discriminate].
  - split; [split; auto | discriminate].
Qed.

Lemma buildLoop_spec (makeTxVersion : TxVersion) (payer : PublicKey)
    (recentBlockhash : string) (_lookupTableCache : CacheLTA)
    (innerTransactions : list InnerTransaction.t) :
  forall txList txs : list (VersionedTransaction + Transaction),
    buildLoop makeTxVersion payer recentBlockhash _lookupTableCache innerTransactions
      txList = Some txs ->
    exists built : list (VersionedTransaction + Transaction),
      txs = txList ++ built
      /\ Forall2
           (fun itemIx tx =>
              _makeTransaction makeTxVersion (InnerTransaction.instructions itemIx) payer
                recentBlockhash (InnerTransaction.signers itemIx)
                (JSObject.values (itemLTA makeTxVersion itemIx _lookupTableCache))
              = Some tx)
           innerTransactions built.
Proof.
  induction innerTransactions as [| itemIx rest IH]; intros txList txs Hloop;
    cbn [buildLoop] in Hloop.
  - injection Hloop as <-. exists []. rewrite app_nil_r. split; [reflexivity | constructor].
  - destruct (_makeTransaction _ _ _ _ _ _) as [tx|] eqn:Etx; [| discriminate].
    cbn in Hloop. destruct (IH _ _ Hloop) as (built & -> & Hall).
    exists (tx :: built). rewrite <- app_assoc. split; [reflexivity |].
    constructor; assumption.
Qed.

(** X14. [buildTransaction] is all or nothing: when it returns, there is
    exactly one transaction per inner transaction, in order, each built by
    [_makeTransaction] from that inner transaction, the blockhash given or
    fetched, and the lookup tables that the cache holds after the call for the
    inner transaction's own addresses. *)
Theorem buildTransaction_one_per_inner (connection : Connection)
    (makeTxVersion : TxVersion) (payer : PublicKey)
    (innerTransactions : list InnerTransaction.t)
    (recentBlockhash : option string) (lookupTableCache : option CacheLTA)
    (txs : list (VersionedTransaction + Transaction)) :
  transactions
    (buildTransaction connection makeTxVersion payer innerTransactions recentBlockhash
       lookupTableCache) = Some txs ->
  exists blockhash : string,
    blockhashOr connection recentBlockhash = Some blockhash
    /\ length txs = length innerTransactions
    /\ Forall2
         (fun itemIx tx =>
            _makeTransaction makeTxVersion (InnerTransaction.instructions itemIx) payer
              blockhash (InnerTransaction.signers itemIx)
              (JSObject.values
                 (itemLTA makeTxVersion itemIx
                    (cacheAfter
                       (buildTransaction connection makeTxVersion payer innerTransactions
                          recentBlockhash lookupTableCache))))
            = Some tx)
         innerTransactions txs.
Proof.
  unfold buildTransaction.
  destruct (validTxVersion makeTxVersion); cbn; [| discriminate].
  destruct (blockhashOr connection recentBlockhash) as [blockhash|]; [| discriminate].
  destruct (needCacheLoop _ _ _) as [needCacheLTA|]; [| discriminate].
  destruct (if (0 <? length needCacheLTA)%nat then _ else _) as [fetched|];
    [| discriminate].
  cbn. intros Hloop. destruct (buildLoop_spec _ _ _ _ _ _ _ Hloop) as (built & -> & Hall).
  exists blockhash. split; [reflexivity |]. cbn [app].
  split; [symmetry; apply (Forall2_length _ _ _ Hall) | exact Hall].
Qed.

Lemma needCacheLoop_spec (items : list string) (_lookupTableCache : CacheLTA) :
  forall needCacheLTA need : list PublicKey,
    needCacheLoop items _lookupTableCache needCacheLTA = Some need ->
    exists added : list PublicKey,
      need = needCacheLTA ++ added
      /\ Forall2 (fun item key => newPublicKey item = Some key)
           (List.filter
              (fun item =>
                 match JSObject.get item _lookupTableCache with
                 | None => true
                 | Some _ => false
                 end) items)
           added.
Proof.
  induction items as [| item rest IH]; intros acc need Hloop; cbn [needCacheLoop] in Hloop.
  - injection Hloop as <-. exists []. rewrite app_nil_r. split; [reflexivity | constructor].
  - cbn [List.filter]. destruct (JSObject.get item _lookupTableCache) as [table|].
    + apply (IH _ _ Hloop).
    + destruct (newPublicKey item) as [key|] eqn:Ekey; [| discriminate].
      cbn in Hloop. destruct (IH _ _ Hloop) as (added & -> & Hall).
      exists (key :: added). rewrite <- app_assoc. split; [reflexivity |].
      constructor; assumption.
Qed.

Lemma needCacheLoop_cached (items : list string) (_lookupTableCache : CacheLTA) :
  forall needCacheLTA : list PublicKey,
    Forall (fun item => JSObject.get item _lookupTableCache <> None) items ->
    needCacheLoop items _lookupTableCache needCacheLTA = Some needCacheLTA.
Proof.
  induction items as [| item rest IH]; intros acc Hall; cbn; [reflexivity |].
  inversion Hall as [| ? ? Hitem Hrest]; subst.
  destruct (JSObject.get item _lookupTableCache); [apply IH, Hrest | congruence].
Qed.

Lemma needCacheLoop_mapM (items : list string) (_lookupTableCache : CacheLTA) :
  forall needCacheLTA : list PublicKey,
    needCacheLoop items _lookupTableCache needCacheLTA
    = added ← mapM newPublicKey
                (List.filter
                   (fun item =>
                      match JSObject.get item _lookupTableCache with
                      | None => true
                      | Some _ => false
                      end) items);
      Some (needCacheLTA ++ added).
Proof.
  induction items as [| item rest IH]; intros acc; cbn [needCacheLoop List.filter].
  - cbn. rewrite app_nil_r. reflexivity.
  - destruct (JSObject.get item _lookupTableCache) as [table|]; [apply IH |].
    cbn [mapM]. destruct (newPublicKey item) as [key|]; cbn; [| reflexivity].
    rewrite IH. destruct (mapM _ _) as [added|]; cbn; [| reflexivity].
    rewrite <- app_assoc. reflexivity.
Qed.

(** X15. The one request that [buildTransaction] makes for lookup tables.
    Take the lookup-table addresses that the inner transactions mention, as
    strings, each at its first mention and in that order, and keep those that
    the cache lacks. On a valid version and with a blockhash given or fetched,
    [buildTransaction] throws, leaving the cache as it was, when one of them
    is not a public key; makes no request, and builds from the cache as it
    is, when there is none; and otherwise calls [getMultipleLookupTableInfo]
    with exactly their keys, in that order, throws if the call fails and else
    builds from the cache with the answer written into it. The addresses
    requested are distinct, none of them is in the cache, and each is
    mentioned by an inner transaction. *)
Theorem buildTransaction_requests_missing (connection : Connection)
    (makeTxVersion : TxVersion) (payer : PublicKey)
    (innerTransactions : list InnerTransaction.t)
    (recentBlockhash : option string) (lookupTableCache : option CacheLTA)
    (blockhash : string) :
  validTxVersion makeTxVersion = true ->
  blockhashOr connection recentBlockhash = Some blockhash ->
  buildTransaction connection makeTxVersion payer innerTransactions recentBlockhash
    lookupTableCache
  = match
      mapM newPublicKey
        (List.filter
           (fun item =>
              match JSObject.get item (default [] lookupTableCache) with
              | None => true
              | Some _ => false
              end)
           (firstOccurrences
              (map toString
                 (concat
                    (map (fun i => default [] (InnerTransaction.lookupTableAddress i))
                       innerTransactions)))))
    with
    | None => mkBuildOutcome (default [] lookupTableCache) None
    | Some [] =>
        mkBuildOutcome (default [] lookupTableCache)
          (buildLoop makeTxVersion payer blockhash (default [] lookupTableCache)
             innerTransactions [])
    | Some (key :: keys) =>
        match getMultipleLookupTableInfo connection (key :: keys) with
        | None => mkBuildOutcome (default [] lookupTableCache) None
        | Some lookupTableAccountsCache =>
            mkBuildOutcome
              (JSObject.spread (default [] lookupTableCache) lookupTableAccountsCache)
              (buildLoop makeTxVersion payer blockhash
                 (JSObject.spread (default [] lookupTableCache) lookupTableAccountsCache)
                 innerTransactions [])
        end
    end
  /\ NoDup
       (List.filter
          (fun item =>
             match JSObject.get item (default [] lookupTableCache) with
             | None => true
             | Some _ => false
             end)
          (firstOccurrences
             (map toString
                (concat
                   (map (fun i => default [] (InnerTransaction.lookupTableAddress i))
                      innerTransactions)))))
  /\ forall item : string,
       item ∈ List.filter
                (fun item =>
                   match JSObject.get item (default [] lookupTableCache) with
                   | None => true
                   | Some _ => false
                   end)
                (firstOccurrences
                   (map toString
                      (concat
                         (map (fun i => default [] (InnerTransaction.lookupTableAddress i))
                            innerTransactions))))
       <-> JSObject.get item (default [] lookupTableCache) = None
           /\ exists (itemIx : InnerTransaction.t) (address : PublicKey),
                itemIx ∈ innerTransactions
                /\ address ∈ default [] (InnerTransaction.lookupTableAddress itemIx)
                /\ toString address = item.
Proof.
  intros Hvalid Hblockhash.
  set (mentioned :=
         map toString
           (concat (map (fun i => default [] (InnerTransaction.lookupTableAddress i))
                      innerTransactions))).
  destruct (uniqueStrings_spec mentioned) as [Hnd Hin].
  rewrite uniqueStrings_firstOccurrences in Hnd, Hin.
  split; [| split].
  - unfold buildTransaction, lta. fold mentioned.
    rewrite Hvalid, Hblockhash, uniqueStrings_firstOccurrences, needCacheLoop_mapM.
    cbn [negb]. destruct (mapM _ _) as [[| key keys]|]; reflexivity.
  - apply NoDup_ListNoDup, List.NoDup_filter, NoDup_ListNoDup, Hnd.
  - intros item. rewrite list_elem_of_In, filter_In, <- list_elem_of_In, Hin.
    unfold mentioned. rewrite list_elem_of_In, in_map_iff.
    assert (Hget : match JSObject.get item (default [] lookupTableCache) with
                   | None => true
                   | Some _ => false
                   end = true
                   <-> JSObject.get item (default [] lookupTableCache) = None)
      by (destruct (JSObject.get item _); split; congruence).
    rewrite Hget. split.
    + intros [(address & Hstr & Haddr) Hnone]. split; [exact Hnone |].
      apply in_concat in Haddr.
      destruct Haddr as (addresses & Hl & Haddr). apply in_map_iff in Hl.
      destruct Hl as (itemIx & <- & Hitem).
      exists itemIx, address. rewrite !list_elem_of_In. auto.
    + intros [Hnone (itemIx & address & Hitem & Haddr & Hstr)]. split; [| exact Hnone].
      exists address. split; [exact Hstr |]. apply in_concat.
      exists (default [] (InnerTransaction.lookupTableAddress itemIx)).
      split; [apply in_map_iff; exists itemIx;
              split; [reflexivity | apply list_elem_of_In, Hitem]
             | apply list_elem_of_In, Haddr].
Qed.

(** X16. The cache of [buildTransaction] only grows: the keys of the object
    after the call are those before it, in place, followed by new ones; and
    when the cache already holds every address mentioned, the call leaves it
    as it was. *)
Theorem buildTransaction_cache_grows (connection : Connection)
    (makeTxVersion : TxVersion) (payer : PublicKey)
    (innerTransactions : list InnerTransaction.t)
    (recentBlockhash : option string) (lookupTableCache : option CacheLTA) :
  (exists added : list string,
     JSObject.keys
       (cacheAfter
          (buildTransaction connection makeTxVersion payer innerTransactions
             recentBlockhash lookupTableCache))
     = JSObject.keys (default [] lookupTableCache) ++ added)
  /\ (Forall (fun item => JSObject.get item (default [] lookupTableCache) <> None)
        (lta innerTransactions) ->
      cacheAfter
        (buildTransaction connection makeTxVersion payer innerTransactions
           recentBlockhash lookupTableCache)
      = default [] lookupTableCache).
Proof.
  assert (Hsame : exists added : list string,
            JSObject.keys (default [] lookupTableCache)
            = JSObject.keys (default [] lookupTableCache) ++ added)
    by (exists []; rewrite app_nil_r; reflexivity).
  unfold buildTransaction. split.
  - destruct (validTxVersion makeTxVersion); cbn; [| exact Hsame].
    destruct (blockhashOr connection recentBlockhash); [| exact Hsame].
    destruct (needCacheLoop _ _ _) as [needCacheLTA|]; [| exact Hsame].
    destruct (if (0 <? length needCacheLTA)%nat then _ else _) as [fetched|];
      [| exact Hsame].
    cbn. apply JSObject_spread_keys.
  - intros Hcached.
    destruct (validTxVersion makeTxVersion); cbn; [| reflexivity].
    destruct (blockhashOr connection recentBlockhash); [| reflexivity].
    rewrite (needCacheLoop_cached _ _ [] Hcached). cbn. reflexivity.
Qed.

Lemma itemLTA_fold (_lookupTableCache : CacheLTA) (addresses : list PublicKey) :
  forall seen : list string,
    fold_left
      (fun _itemLTA item =>
         JSObject.set (toString item) (JSObject.get (toString item) _lookupTableCache)
           _itemLTA)
      addresses
      (map (fun k => (k, JSObject.get k _lookupTableCache)) seen)
    = map (fun k => (k, JSObject.get k _lookupTableCache))
        (fold_left
           (fun seen x => if existsb (String.eqb x) seen then seen else seen ++ [x])
           (map toString addresses) seen).
Proof.
  induction addresses as [| address rest IH]; intros seen; cbn [fold_left map];
    [reflexivity |].
  rewrite (JSObject_set_tabulate (fun k => JSObject.get k _lookupTableCache)).
  apply IH.
Qed.

(** X17. The lookup tables handed to [_makeTransaction] by [buildTransaction]:
    for [V0], the cache's entries for the inner transaction's own addresses,
    each address once, in order of first mention, [undefined] for an address
    the cache lacks; for any other version, none. *)
Theorem itemLTA_values (makeTxVersion : TxVersion) (itemIx : InnerTransaction.t)
    (_lookupTableCache : CacheLTA) :
  JSObject.values (itemLTA makeTxVersion itemIx _lookupTableCache)
  = match makeTxVersion with
    | V0 =>
        map (fun item => JSObject.get item _lookupTableCache)
          (uniqueStrings
             (map toString (default [] (InnerTransaction.lookupTableAddress itemIx))))
    | _ => []
    end.
Proof.
  destruct makeTxVersion; [| reflexivity | reflexivity].
  unfold itemLTA, uniqueStrings.
  rewrite (itemLTA_fold _lookupTableCache _ []).
  unfold JSObject.values. rewrite List.map_map. reflexivity.
Qed.

End TransactionBuilding.

(** * [Math.min] as a minimum *)

Section MathMinOrder.

Lemma SFcompare_eq_cases (a b : spec_float) :
  SFcompare a b = Some Eq ->
  a = b \/ exists s1 s2 : bool, a = S754_zero s1 /\ b = S754_zero s2.
Proof.
  destruct a as [sa|sa| |sa ma ea], b as [sb|sb| |sb mb eb];
    try destruct sa; try destruct sb; cbn; try discriminate; eauto.
  all: destruct (Z.compare_spec ea eb) as [->| |]; try discriminate.
  all: change (Pos.compare_cont Eq ma mb) with (ma ?= mb)%positive.
  all: destruct (Pos.compare_spec ma mb) as [->| |]; cbn; try discriminate; auto.
Qed.

Lemma SFcompare_zero_r (a : spec_float) (s s' : bool) :
  SFcompare a (S754_zero s) = SFcompare a (S754_zero s').
Proof. destruct a as [[]|[]| |[] ? ?]; reflexivity. Qed.

Lemma SFcompare_zero_l (a : spec_float) (s s' : bool) :
  SFcompare (S754_zero s) a = SFcompare (S754_zero s') a.
Proof. destruct a as [[]|[]| |[] ? ?]; reflexivity. Qed.

Lemma SFcompare_lt_trans (a b c : spec_float) :
  SFcompare a b = Some Lt -> SFcompare b c = Some Lt -> SFcompare a c = Some Lt.
Proof.
  destruct a as [sa|sa| |sa ma ea], b as [sb|sb| |sb mb eb], c as [sc|sc| |sc mc ec];
    try destruct sa; try destruct sb; try destruct sc; cbn;
    try discriminate; try reflexivity.
  all: change (Pos.compare_cont Eq ?p ?q) with (p ?= q)%positive.
  all: destruct (Z.compare_spec ea eb) as [?| |]; try discriminate;
    destruct (Z.compare_spec eb ec) as [?| |]; try discriminate;
    destruct (Z.compare_spec ea ec) as [?| |]; try lia; try reflexivity;
    subst.
  all: destruct (Pos.compare_spec ma mb); cbn; try discriminate;
    destruct (Pos.compare_spec mb mc); cbn; try discriminate;
    destruct (Pos.compare_spec ma mc); cbn; try reflexivity; lia.
Qed.

Lemma is_nan_nan (x : float) : is_nan x = true -> x = nan.
Proof.
  intros Hx. pose proof (is_nan_true x Hx) as Hc.
  rewrite <- (SF2Prim_Prim2SF x).
  destruct (Prim2SF x) as [[]|[]| |[] ? ?]; try discriminate; try reflexivity.
  all: cbn in Hc; destruct (Z.compare e e); discriminate.
Qed.

Lemma zero_cases (x : float) (s : bool) :
  Prim2SF x = S754_zero s -> x = zero \/ x = neg_zero.
Proof.
  intros E. rewrite <- (SF2Prim_Prim2SF x), E. destruct s; [right | left]; reflexivity.
Qed.

(** Two numbers neither of which is below the other are the same double, or
    the two zeros. *)
Lemma float_tie (x y : float) :
  is_nan x = false -> is_nan y = false ->
  (x <? y)%float = false -> (y <? x)%float = false ->
  x = y \/ ((x = zero \/ x = neg_zero) /\ (y = zero \/ y = neg_zero)).
Proof.
  intros Nx Ny. rewrite !FloatAxioms.ltb_spec. unfold SFltb.
  rewrite (SFcompare_antisym (Prim2SF x) (Prim2SF y)).
  destruct (SFcompare_some _ _ (is_nan_false x Nx) (is_nan_false y Ny)) as [c Hc].
  rewrite Hc. destruct c; cbn; try discriminate. intros _ _.
  destruct (SFcompare_eq_cases _ _ Hc) as [Heq | (s1 & s2 & E1 & E2)].
  - left. apply Prim2SF_inj, Heq.
  - right. split; [apply (zero_cases x s1 E1) | apply (zero_cases y s2 E2)].
Qed.

Lemma ltb_trans (x y z : float) :
  (x <? y)%float = true -> (y <? z)%float = true -> (x <? z)%float = true.
Proof.
  rewrite !FloatAxioms.ltb_spec. unfold SFltb.
  destruct (SFcompare (Prim2SF x) (Prim2SF y)) as [[]|] eqn:Exy; try discriminate.
  destruct (SFcompare (Prim2SF y) (Prim2SF z)) as [[]|] eqn:Eyz; try discriminate.
  rewrite (SFcompare_lt_trans _ _ _ Exy Eyz). reflexivity.
Qed.

Lemma ltb_zeros_l (z : float) : (zero <? z)%float = (neg_zero <? z)%float.
Proof.
  rewrite !FloatAxioms.ltb_spec. unfold SFltb.
  change (Prim2SF zero) with (S754_zero false).
  change (Prim2SF neg_zero) with (S754_zero true).
  rewrite (SFcompare_zero_l (Prim2SF z) false true). reflexivity.
Qed.

Lemma ltb_zeros_r (z : float) : (z <? zero)%float = (z <? neg_zero)%float.
Proof.
  rewrite !FloatAxioms.ltb_spec. unfold SFltb.
  change (Prim2SF zero) with (S754_zero false).
  change (Prim2SF neg_zero) with (S754_zero true).
  rewrite (SFcompare_zero_r (Prim2SF z) false true). reflexivity.
Qed.

Lemma tie_ltb_l (x y z : float) :
  is_nan x = false -> is_nan y = false ->
  (x <? y)%float = false -> (y <? x)%float = false ->
  (x <? z)%float = (y <? z)%float.
Proof.
  intros Nx Ny Lxy Lyx.
  destruct (float_tie x y Nx Ny Lxy Lyx) as [-> | [[-> | ->] [-> | ->]]];
    first [reflexivity | apply ltb_zeros_l | symmetry; apply ltb_zeros_l].
Qed.

Lemma tie_ltb_r (x y z : float) :
  is_nan x = false -> is_nan y = false ->
  (x <? y)%float = false -> (y <? x)%float = false ->
  (z <? x)%float = (z <? y)%float.
Proof.
  intros Nx Ny Lxy Lyx.
  destruct (float_tie x y Nx Ny Lxy Lyx) as [-> | [[-> | ->] [-> | ->]]];
    first [reflexivity | apply ltb_zeros_r | symmetry; apply ltb_zeros_r].
Qed.

Lemma Math_min_minOrder (x y : float) :
  is_nan x = false -> is_nan y = false ->
  Math_min x y = if minOrder x y then x else y.
Proof.
  intros Nx Ny. unfold Math_min, minOrder. rewrite Nx, Ny.
  remember (is_zero x && get_sign x) as tx eqn:Tx.
  remember (is_zero y && get_sign y) as ty eqn:Ty.
  destruct (x <? y)%float eqn:Lxy; [reflexivity |].
  destruct (y <? x)%float eqn:Lyx; [reflexivity |]. cbn [orb andb negb].
  destruct tx; [reflexivity |]. destruct ty; cbn [orb negb]; [reflexivity |].
  destruct (float_tie x y Nx Ny Lxy Lyx) as [-> | [[-> | ->] [-> | ->]]];
    first [reflexivity | vm_compute in Tx, Ty; discriminate].
Qed.

Lemma minOrder_total (x y : float) : minOrder x y = false -> minOrder y x = true.
Proof.
  unfold minOrder.
  destruct (x <? y)%float, (y <? x)%float, (is_zero x && get_sign x),
    (is_zero y && get_sign y); cbn; congruence.
Qed.

Lemma minOrder_antisym (x y : float) :
  is_nan x = false -> is_nan y = false ->
  minOrder x y = true -> minOrder y x = true -> x = y.
Proof.
  intros Nx Ny. unfold minOrder.
  destruct (x <? y)%float eqn:Lxy.
  - rewrite (ltb_asym x y Lxy). cbn [orb andb negb]. discriminate.
  - destruct (y <? x)%float eqn:Lyx; cbn [orb andb negb]; [discriminate |].
    destruct (float_tie x y Nx Ny Lxy Lyx) as [-> | [[-> | ->] [-> | ->]]];
      first [intros; reflexivity | vm_compute; discriminate].
Qed.

Lemma minOrder_trans (x y z : float) :
  is_nan x = false -> is_nan y = false -> is_nan z = false ->
  minOrder x y = true -> minOrder y z = true -> minOrder x z = true.
Proof.
  intros Nx Ny Nz. unfold minOrder.
  generalize (is_zero x && get_sign x), (is_zero y && get_sign y),
    (is_zero z && get_sign z).
  intros tx ty tz.
  destruct (x <? y)%float eqn:Lxy; cbn [orb andb negb].
  - intros _. destruct (y <? z)%float eqn:Lyz; cbn [orb andb negb].
    + intros _. rewrite (ltb_trans x y z Lxy Lyz). reflexivity.
    + destruct (z <? y)%float eqn:Lzy; cbn [orb andb negb]; [discriminate |]. intros _.
      rewrite <- (tie_ltb_r y z x Ny Nz Lyz Lzy), Lxy. reflexivity.
  - destruct (y <? x)%float eqn:Lyx; cbn [orb andb negb]; [discriminate |]. intros Hxy.
    rewrite (tie_ltb_l x y z Nx Ny Lxy Lyx), (tie_ltb_r x y z Nx Ny Lxy Lyx).
    destruct (y <? z)%float eqn:Lyz; cbn [orb andb negb]; [reflexivity |].
    destruct (z <? y)%float eqn:Lzy; cbn [orb andb negb]; [discriminate |]. intros Hyz.
    destruct tx, ty, tz; cbn in *; congruence.
Qed.

Lemma Math_min_not_nan (x y : float) :
  is_nan x = false -> is_nan y = false -> is_nan (Math_min x y) = false.
Proof. intros Nx Ny. destruct (Math_min_cases x y) as [->| ->]; assumption. Qed.

Lemma Math_min_nan_l (y : float) : Math_min nan y = nan.
Proof. reflexivity. Qed.

Lemma Math_min_nan_r (x : float) : Math_min x nan = nan.
Proof.
  unfold Math_min. destruct (is_nan x) eqn:Nx; [apply is_nan_nan, Nx | reflexivity].
Qed.

Lemma Math_min_comm (x y : float) : Math_min x y = Math_min y x.
Proof.
  destruct (is_nan x) eqn:Nx;
    [rewrite (is_nan_nan x Nx), Math_min_nan_l, Math_min_nan_r; reflexivity |].
  destruct (is_nan y) eqn:Ny;
    [rewrite (is_nan_nan y Ny), Math_min_nan_l, Math_min_nan_r; reflexivity |].
  rewrite !Math_min_minOrder by assumption.
  destruct (minOrder x y) eqn:Hxy, (minOrder y x) eqn:Hyx; try reflexivity.
  - apply minOrder_antisym; assumption.
  - rewrite (minOrder_total x y Hxy) in Hyx. discriminate.
Qed.

Lemma Math_min_assoc (x y z : float) :
  Math_min (Math_min x y) z = Math_min x (Math_min y z).
Proof.
  destruct (is_nan x) eqn:Nx;
    [rewrite (is_nan_nan x Nx), !Math_min_nan_l; reflexivity |].
  destruct (is_nan y) eqn:Ny;
    [rewrite (is_nan_nan y Ny), Math_min_nan_l, !Math_min_nan_r, Math_min_nan_l;
     reflexivity |].
  destruct (is_nan z) eqn:Nz;
    [rewrite (is_nan_nan z Nz), !Math_min_nan_r; reflexivity |].
  rewrite (Math_min_minOrder x y), (Math_min_minOrder y z) by assumption.
  destruct (minOrder x y) eqn:Hxy, (minOrder y z) eqn:Hyz;
    rewrite ?Math_min_minOrder by assumption; rewrite ?Hxy, ?Hyz; try reflexivity.
  - rewrite (minOrder_trans x y z Nx Ny Nz Hxy Hyz). reflexivity.
  - destruct (minOrder x z) eqn:Hxz; [| reflexivity].
    apply minOrder_antisym; try assumption.
    apply (minOrder_trans z y x Nz Ny Nx);
      [apply minOrder_total, Hyz | apply minOrder_total, Hxy].
Qed.

End MathMinOrder.

(** X18. [minExpirationTime] is commutative, associative and idempotent, with
    the absent time as its neutral element (claim C8): combining the
    expiration times of several legs gives the same result in any order and
    grouping, NaN and the two zeros included. *)
Theorem minExpirationTime_algebra :
  (forall a b : option float, minExpirationTime a b = minExpirationTime b a)
  /\ (forall a b c : option float,
        minExpirationTime (minExpirationTime a b) c
        = minExpirationTime a (minExpirationTime b c))
  /\ (forall a : option float, minExpirationTime a a = a).
Proof.
  split; [| split].
  - intros [x|] [y|]; cbn; try reflexivity. f_equal. apply Math_min_comm.
  - intros [x|] [y|] [z|]; cbn; try reflexivity. f_equal. apply Math_min_assoc.
  - intros [x|]; cbn; [| reflexivity]. f_equal.
    destruct (Math_min_cases x x); assumption.
Qed.

(** * Concrete runs of the further properties *)

Lemma getTransferAmountFee_gross_up_exact_witness :
  exists TAmount fee : Z,
    getTransferAmountFee 12345 (Some exampleFeeConfig) exampleEpochInfo true
    = Some (GetTransferAmountFee.mk TAmount (Some fee)
              (expirationTime exampleFeeConfig exampleEpochInfo))
    /\ TAmount - fee = 12345
    /\ fee <= maximumFee exampleFeeConfig exampleEpochInfo.
Proof.
  apply (getTransferAmountFee_gross_up_exact 12345 exampleFeeConfig exampleEpochInfo).
  change (basisPoints exampleFeeConfig exampleEpochInfo) with 100. lia.
Defined.

Lemma getTransferAmountFee_gross_up_minimal_witness :
  exists TAmount fee : Z,
    getTransferAmountFee 12345 (Some exampleFeeConfig) exampleEpochInfo true
    = Some (GetTransferAmountFee.mk TAmount (Some fee)
              (expirationTime exampleFeeConfig exampleEpochInfo))
    /\ forall T : Z,
         T < TAmount ->
         exists f : Z,
           getTransferAmountFee T (Some exampleFeeConfig) exampleEpochInfo false
           = Some (GetTransferAmountFee.mk T (Some f)
                     (expirationTime exampleFeeConfig exampleEpochInfo))
           /\ T - f < 12345.
Proof.
  apply (getTransferAmountFee_gross_up_minimal 12345 exampleFeeConfig exampleEpochInfo).
  change (basisPoints exampleFeeConfig exampleEpochInfo) with 100. lia.
Defined.

Lemma getTransferAmountFee_fee_only_bounds_witness :
  exists fee : Z,
    getTransferAmountFee 12345 (Some exampleFeeConfig) exampleEpochInfo false
    = Some (GetTransferAmountFee.mk 12345 (Some fee)
              (expirationTime exampleFeeConfig exampleEpochInfo))
    /\ 0 <= fee <= 12345.
Proof.
  apply (getTransferAmountFee_fee_only_bounds 12345 exampleFeeConfig exampleEpochInfo).
  - lia.
  - change (basisPoints exampleFeeConfig exampleEpochInfo) with 100. lia.
  - change (maximumFee exampleFeeConfig exampleEpochInfo) with 5000. lia.
Defined.

Lemma getTransferAmountFee_fee_only_mono_witness :
  exists fee1 fee2 : Z,
    getTransferAmountFee 12345 (Some exampleFeeConfig) exampleEpochInfo false
    = Some (GetTransferAmountFee.mk 12345 (Some fee1)
              (expirationTime exampleFeeConfig exampleEpochInfo))
    /\ getTransferAmountFee 1000000 (Some exampleFeeConfig) exampleEpochInfo false
       = Some (GetTransferAmountFee.mk 1000000 (Some fee2)
                 (expirationTime exampleFeeConfig exampleEpochInfo))
    /\ fee1 <= fee2.
Proof.
  apply (getTransferAmountFee_fee_only_mono 12345 1000000 exampleFeeConfig
           exampleEpochInfo).
  - change (basisPoints exampleFeeConfig exampleEpochInfo) with 100. lia.
  - lia.
Defined.

Lemma getTransferAmountFee_gross_up_bounds_witness :
  exists TAmount fee : Z,
    getTransferAmountFee 1000000 (Some exampleFeeConfig) exampleEpochInfo true
    = Some (GetTransferAmountFee.mk TAmount (Some fee)
              (expirationTime exampleFeeConfig exampleEpochInfo))
    /\ 1000000 <= TAmount <= 1000000 + maximumFee exampleFeeConfig exampleEpochInfo
    /\ 0 <= fee.
Proof.
  apply (getTransferAmountFee_gross_up_bounds 1000000 exampleFeeConfig exampleEpochInfo).
  - lia.
  - change (basisPoints exampleFeeConfig exampleEpochInfo) with 100. lia.
  - change (maximumFee exampleFeeConfig exampleEpochInfo) with 5000. lia.
Defined.

Lemma getTransferAmountFee_gross_up_mono_witness :
  exists r1 r2 : GetTransferAmountFee.t,
    getTransferAmountFee 12345 (Some exampleFeeConfig) exampleEpochInfo true = Some r1
    /\ getTransferAmountFee 1000000 (Some exampleFeeConfig) exampleEpochInfo true = Some r2
    /\ GetTransferAmountFee.amount r1 <= GetTransferAmountFee.amount r2.
Proof.
  apply (getTransferAmountFee_gross_up_mono 12345 1000000 exampleFeeConfig
           exampleEpochInfo).
  - change (basisPoints exampleFeeConfig exampleEpochInfo) with 100. lia.
  - lia.
Defined.

Lemma getTransferAmountFee_zero_basis_points_witness :
  getTransferAmountFee 12345 (Some zeroFeeConfig) exampleEpochInfo true
  = Some (GetTransferAmountFee.mk 12345 (Some 0)
            (expirationTime zeroFeeConfig exampleEpochInfo))
  /\ getTransferAmountFee 12345 (Some zeroFeeConfig) laterEpochInfo false
     = Some (GetTransferAmountFee.mk 12345 (Some 0) None).
Proof.
  split.
  - apply (getTransferAmountFee_zero_basis_points 12345 zeroFeeConfig exampleEpochInfo true).
    + reflexivity.
    + change (maximumFee zeroFeeConfig exampleEpochInfo) with 5000. lia.
  - apply (getTransferAmountFee_zero_basis_points 12345 zeroFeeConfig laterEpochInfo false).
    + reflexivity.
    + change (maximumFee zeroFeeConfig laterEpochInfo) with 7000. lia.
Defined.

Lemma fetchMultipleMintInfos_returns_witness :
  exists mintInfos : list (FetchedAccount string),
    @getMultipleAccountsInfoWithCustomFlags exampleLedger tt exampleMints = Some mintInfos
    /\ forall key : string,
         (<["EPjFWdd5AufqSSqeM2qN1xzybapC8G4wEGGkZwyTDt1v"%string := exampleMintInfo]>
            (<["So11111111111111111111111111111111111111112"%string := exampleMintInfo]> ∅)
          : gmap string MintInfo.t) !! key
         = if decide (key ∈ map (fun i => @toString exampleLedger (pubkey i)) mintInfos)
           then Some (MintInfo.mk (Mint.mk null 0 0 true null) None)
           else None.
Proof.
  destruct (@fetchMultipleMintInfos_returns exampleLedger tt exampleMints
              (<["EPjFWdd5AufqSSqeM2qN1xzybapC8G4wEGGkZwyTDt1v"%string := exampleMintInfo]>
                 (<["So11111111111111111111111111111111111111112"%string
                    := exampleMintInfo]> ∅))
              eq_refl) as [[Hnil _] | (mintInfos & _ & Hfetch & Hkeys)].
  - discriminate Hnil.
  - exists mintInfos. split; assumption.
Defined.

Lemma buildTransaction_one_per_inner_witness :
  exists txs : list (@VersionedTransaction exampleLedger exampleWeb3
                     + @Transaction exampleLedger exampleWeb3),
    transactions
      (@buildTransaction _ _ exampleCommon tt V0 "payer"%string exampleInner None
         (Some exampleCache)) = Some txs
    /\ length txs = 2%nat.
Proof.
  eexists. split; [reflexivity |].
  destruct (@buildTransaction_one_per_inner _ _ exampleCommon tt V0 "payer"%string
              exampleInner None (Some exampleCache) _ eq_refl)
    as (blockhash & _ & Hlength & _).
  exact Hlength.
Defined.

Lemma buildTransaction_requests_missing_witness :
  validTxVersion V0 = true
  /\ @blockhashOr _ exampleWeb3 tt None = Some "latest"%string
  /\ @buildTransaction _ _ exampleCommon tt V0 "payer"%string exampleInner None
       (Some exampleCache)
     = match
         @getMultipleLookupTableInfo _ _ exampleCommon tt ["tableA"; "tableC"]%string
       with
       | None => @mkBuildOutcome _ exampleWeb3 exampleCache None
       | Some lookupTableAccountsCache =>
           @mkBuildOutcome _ exampleWeb3
             (JSObject.spread exampleCache lookupTableAccountsCache)
             (@buildLoop _ exampleWeb3 V0 "payer"%string "latest"%string
                (JSObject.spread exampleCache lookupTableAccountsCache) exampleInner [])
       end.
Proof.
  split; [reflexivity |]. split; [reflexivity |].
  exact (proj1 (@buildTransaction_requests_missing _ _ exampleCommon tt V0
                  "payer"%string exampleInner None (Some exampleCache)
                  "latest"%string eq_refl eq_refl)).
Defined.

(** The two builders on the same failing input: an inner transaction without
    instructions cannot be built as a legacy transaction;
    [buildSimpleTransaction] leaves it out, [buildTransaction] throws. *)
Example builders_on_a_failure :
  @buildSimpleTransaction _ exampleWeb3 tt LEGACY "payer"%string
    [@InnerSimpleTransaction.mk _ exampleWeb3 [] ["ix"%string] [] None;
     @InnerSimpleTransaction.mk _ exampleWeb3 [] [] [] None] None None
  = Some [inr ["ix"; "payer"; "latest"]%string]
  /\ transactions
       (@buildTransaction _ _ exampleCommon tt LEGACY "payer"%string
          [@InnerTransaction.mk _ exampleWeb3 [] ["ix"%string] [] None;
           @InnerTransaction.mk _ exampleWeb3 [] [] [] None] None None)
     = None.
Proof. split; reflexivity. Qed.

(** A legacy build still fetches the tables that the inner transactions
    mention, and caches them, though no legacy transaction uses them. *)
Example legacy_build_fills_the_cache :
  @buildTransaction _ _ exampleCommon tt LEGACY "payer"%string exampleInner
    (Some "bh"%string) None
  = @mkBuildOutcome _ exampleWeb3
      [("tableA", "tableA"); ("tableB", "tableB"); ("tableC", "tableC")]%string
      (Some [inr ["ix1"; "payer"; "bh"; "alice"]%string;
             inr ["ix2"; "payer"; "bh"]%string]).
Proof. reflexivity. Qed.

Example wrapped_sol_run :
  @getWSOLAmount _ exampleWeb3
    [@TokenAccount.mk exampleLedger "a1" "So11111111111111111111111111111111111111112" 5;
     @TokenAccount.mk exampleLedger "a2" "other" 7;
     @TokenAccount.mk exampleLedger "a3" "So11111111111111111111111111111111111111112" 11]%string
  = 16.
Proof. reflexivity. Qed.

(** Of three accounts, two of them wrapped SOL, [unwarpSol] closes those two,
    in order. *)
Example unwarpSol_run :
  @unwarpSol _ _ exampleCommon tt "wallet"%string "payer"%string
    [@TokenAccount.mk exampleLedger "a1" "So11111111111111111111111111111111111111112" 5;
     @TokenAccount.mk exampleLedger "a2" "other" 7;
     @TokenAccount.mk exampleLedger "a3" "So11111111111111111111111111111111111111112" 11]%string
    V0
  = Some [@InnerSimpleTransaction.mk _ exampleWeb3 ["closeAccount"%string] ["a1"%string] []
            None;
          @InnerSimpleTransaction.mk _ exampleWeb3 ["closeAccount"%string] ["a3"%string] []
            None].
Proof. reflexivity. Qed.

(** The order of first mention, and the request of the example: table B is
    in the cache, tables A and C are asked for, in that order. *)
Example first_mentions_run :
  firstOccurrences ["tableA"; "tableB"; "tableA"; "tableC"; "tableB"]%string
  = ["tableA"; "tableB"; "tableC"]%string
  /\ @lta _ exampleWeb3 exampleInner = ["tableA"; "tableB"; "tableC"]%string
  /\ @needCacheLoop _ exampleWeb3 (@lta _ exampleWeb3 exampleInner) exampleCache []
     = Some ["tableA"; "tableC"]%string.
Proof. repeat split. Qed.

(** * More on the two modes and on the builders *)

(** X19. Grossing up what a transfer nets never asks for more than was sent:
    on a tier with [basisPoints] in [[0, 10000)], if the fee-only mode
    withholds [f] from a gross amount [G], the gross-up mode on the net
    [G - f] returns a gross amount of at most [G]. *)
Theorem getTransferAmountFee_net_then_gross_up (G : BN.t)
    (feeConfig : TransferFeeConfig.t) (epochInfo : EpochInfo.t) :
  0 <= basisPoints feeConfig epochInfo < 10000 ->
  exists f TAmount fee : Z,
    getTransferAmountFee G (Some feeConfig) epochInfo false
    = Some (GetTransferAmountFee.mk G (Some f) (expirationTime feeConfig epochInfo))
    /\ getTransferAmountFee (G - f) (Some feeConfig) epochInfo true
       = Some (GetTransferAmountFee.mk TAmount (Some fee)
                 (expirationTime feeConfig epochInfo))
    /\ TAmount <= G.
Proof.
  intros [Hlo Hhi]. unfold getTransferAmountFee, basisPoints in *.
  eexists _, _, _. split; [apply feeOnTier_fee_only |].
  split; [apply feeOnTier_gross_up_min; exact Hhi |].
  set (tier := nowFeeConfig feeConfig epochInfo) in *.
  set (f := Z.min (ceilDiv (G * TransferFee.transferFeeBasisPoints tier) 10000)
              (TransferFee.maximumFee tier)).
  destruct (Z_le_gt_dec
              (Z.min (ceilDiv ((G - f) * 10000)
                        (10000 - TransferFee.transferFeeBasisPoints tier))
                 (G - f + TransferFee.maximumFee tier)) G) as [Hle|Hgt];
    [exact Hle | exfalso].
  pose proof (gross_below_nets_less (G - f) (TransferFee.transferFeeBasisPoints tier)
                (TransferFee.maximumFee tier) G Hhi ltac:(lia)) as Hless.
  fold f in Hless. lia.
Qed.

Section TransactionKinds.

Context `{Common}.

Lemma _makeTransaction_kind (makeTxVersion : TxVersion)
    (instructions : list TransactionInstruction) (payer : PublicKey)
    (recentBlockhash : string) (signers : list Signer)
    (lookupTableInfos : list (option AddressLookupTableAccount))
    (tx : VersionedTransaction + Transaction) :
  _makeTransaction makeTxVersion instructions payer recentBlockhash signers
    lookupTableInfos = Some tx ->
  versionOf tx = makeTxVersion.
Proof.
  unfold _makeTransaction. destruct makeTxVersion; [| | discriminate].
  - destruct (compileToV0Message _ _) as [message|]; cbn; [| discriminate].
    destruct (VersionedTransaction_sign _ _) as [itemV|]; cbn; [| discriminate].
    intros Htx. injection Htx as <-. reflexivity.
  - destruct (Transaction_add _ _) as [tx0|]; cbn [mbind option_bind]; [| discriminate].
    destruct (0 <? length signers)%nat.
    + destruct (Transaction_sign _ _) as [tx1|]; cbn [mbind option_bind];
        [| discriminate].
      intros Htx. injection Htx as <-. reflexivity.
    + intros Htx. injection Htx as <-. reflexivity.
Qed.

Lemma omap_Forall {A B : Type} (f : A -> option B) (P : B -> Prop) (l : list A) :
  (forall x y, f x = Some y -> P y) -> Forall P (omap f l).
Proof.
  intros Hf. induction l as [| x l IH]; cbn; [constructor |].
  destruct (f x) as [y|] eqn:E; [constructor; [apply (Hf x y E) | exact IH] | exact IH].
Qed.

(** X20. The kind of transaction that the builders return follows the version:
    every transaction that [buildTransaction] or [buildSimpleTransaction]
    returns is a [VersionedTransaction] when [makeTxVersion] is [V0] and a
    legacy [Transaction] when it is [LEGACY]. *)
Theorem builders_transaction_kind (connection : Connection) (makeTxVersion : TxVersion)
    (payer : PublicKey) (recentBlockhash : option string) :
  (forall (innerTransactions : list InnerTransaction.t)
          (lookupTableCache : option CacheLTA)
          (txs : list (VersionedTransaction + Transaction)),
     transactions
       (buildTransaction connection makeTxVersion payer innerTransactions
          recentBlockhash lookupTableCache) = Some txs ->
     Forall (fun tx => versionOf tx = makeTxVersion) txs)
  /\ (forall (innerTransactions : list InnerSimpleTransaction.t)
             (addLookupTableInfo : option CacheLTA)
             (txList : list (VersionedTransaction + Transaction)),
        buildSimpleTransaction connection makeTxVersion payer innerTransactions
          recentBlockhash addLookupTableInfo = Some txList ->
        Forall (fun tx => versionOf tx = makeTxVersion) txList).
Proof.
  split.
  - intros innerTransactions lookupTableCache txs. unfold buildTransaction.
    destruct (validTxVersion makeTxVersion); cbn; [| discriminate].
    destruct (blockhashOr connection recentBlockhash) as [blockhash|]; [| discriminate].
    destruct (needCacheLoop _ _ _) as [needCacheLTA|]; [| discriminate].
    destruct (if (0 <? length needCacheLTA)%nat then _ else _) as [fetched|];
      [| discriminate].
    cbn. intros Hloop.
    destruct (buildLoop_spec _ _ _ _ _ _ _ Hloop) as (built & -> & Hall). cbn [app].
    clear Hloop. induction Hall as [| itemIx tx rest built Htx _ IH]; constructor.
    + apply (_makeTransaction_kind _ _ _ _ _ _ _ Htx).
    + exact IH.
  - intros innerTransactions addLookupTableInfo txList. unfold buildSimpleTransaction.
    destruct (validTxVersion makeTxVersion); cbn; [| discriminate].
    destruct (blockhashOr connection recentBlockhash) as [blockhash|]; cbn;
      [| discriminate].
    intros Hres. injection Hres as <-. rewrite buildSimpleLoop_omap. cbn [app].
    apply omap_Forall. intros itemIx tx Htx.
    apply (_makeTransaction_kind _ _ _ _ _ _ _ Htx).
Qed.

End TransactionKinds.

Lemma getTransferAmountFee_net_then_gross_up_witness :
  exists f TAmount fee : Z,
    getTransferAmountFee 12470 (Some exampleFeeConfig) exampleEpochInfo false
    = Some (GetTransferAmountFee.mk 12470 (Some f)
              (expirationTime exampleFeeConfig exampleEpochInfo))
    /\ getTransferAmountFee (12470 - f) (Some exampleFeeConfig) exampleEpochInfo true
       = Some (GetTransferAmountFee.mk TAmount (Some fee)
                 (expirationTime exampleFeeConfig exampleEpochInfo))
    /\ TAmount <= 12470.
Proof.
  apply (getTransferAmountFee_net_then_gross_up 12470 exampleFeeConfig exampleEpochInfo).
  change (basisPoints exampleFeeConfig exampleEpochInfo) with 100. lia.
Defined.
